(** * Temperature control system (temperature_control.py)

    A shallow embedding of the MicroPython script that reads a DHT22 sensor,
    compares the temperature with a fixed threshold and drives a relay and a
    signal LED.

    - Python floats are Rocq's primitive binary64 floats; the comparison
      [temperature > TEMPERATURE_THRESHOLD] is [PrimFloat.ltb] with its
      arguments swapped, so a NaN takes the [else] branch as in Python.
    - The script talks to the outside through the console, the sensor, the
      relay, the LED and [sleep].  Each such call appends an [event] to the
      output of the computation, in program order.
    - The module-level flag [current_relay_state] is the only program state
      the script mutates.  It lives in the [world] record together with the
      number of sensor reads done so far and the arrival time of Ctrl+C.
    - [while True] is unrolled by a fuel argument counting loop iterations;
      when the fuel is used up the outcome is [Running], which is neither a
      return nor an exception. *)

From Stdlib Require Import String List Bool Arith ZArith Lia PrimFloat.
Import ListNotations.

Set Implicit Arguments.

(* Decimal literals such as 29.9 denote the nearest binary64 value, as in
   Python. *)
#[local] Set Warnings "-inexact-float".

(** ** Configuration (the constants of the source) *)

Definition LED_PIN : Z := 12.
Definition ON_STATE : Z := 1.
Definition OFF_STATE : Z := 0.
Definition DHT_PIN : Z := 10.
Definition TEMPERATURE_THRESHOLD : float := 30.0%float.
Definition READ_INTERVAL : float := 10.0%float.

(** Python's [x > y] on floats. *)
Definition float_gt (x y : float) : bool := PrimFloat.ltb y x.

(** ** Exceptions *)

Inductive exn : Type :=
| KeyboardInterrupt
| TypeError
| SensorException (msg : string).

(** [except Exception] catches every exception of the model except
    [KeyboardInterrupt], which derives from [BaseException] only. *)
Definition is_Exception (e : exn) : bool :=
  match e with
  | KeyboardInterrupt => false
  | TypeError | SensorException _ => true
  end.

(** ** Console output

    An f-string is kept as the list of its pieces, so that no float has to be
    formatted: the interpolated values stay values. *)

Inductive piece : Type :=
| Text (s : string)
| Num (x : float)
| Int (n : nat)
| Err (e : exn)
| Rule (width : nat).   (* "=" * width *)

Definition fstring : Type := list piece.

(** ** Events: the calls that leave the program *)

Inductive event : Type :=
| Print (s : fstring)       (* print(...) *)
| SensorRead                (* dht_sensor.read() *)
| RelayToggle               (* relay.toggle() *)
| LedValue (v : Z)          (* led.value(v) *)
| Sleep (seconds : float).  (* sleep(seconds) *)

(** What one call of [dht_sensor.read()] does: it returns a pair whose
    components may be [None], or it raises an [Exception]. *)
Inductive reply : Type :=
| Reply (temperature humidity : option float)
| Fault (msg : string).

(** ** Program state *)

Record world : Type := World {
  current_relay_state : bool;  (* the global flag of the module *)
  reads : nat;                 (* calls of dht_sensor.read() answered so far *)
  pending : option nat         (* I/O calls that still succeed before Ctrl+C *)
}.

Definition set_current_relay_state (b : bool) (w : world) : world :=
  World b (reads w) (pending w).

(** ** The monad: state, exceptions, output *)

Inductive outcome (A : Type) : Type :=
| Val (a : A)
| Raise (e : exn)
| Running.

Arguments Raise {A} e.
Arguments Running {A}.

Definition M (A : Type) : Type := world -> outcome A * world * list event.

Definition ret {A : Type} (a : A) : M A := fun w => (Val a, w, []).

Definition bind {A B : Type} (m : M A) (k : A -> M B) : M B :=
  fun w =>
    match m w with
    | (Val a, w1, out1) =>
        match k a w1 with
        | (r, w2, out2) => (r, w2, out1 ++ out2)
        end
    | (Raise e, w1, out1) => (Raise e, w1, out1)
    | (Running, w1, out1) => (Running, w1, out1)
    end.

Declare Scope prog_scope.
Delimit Scope prog_scope with prog.
Notation "x <- m ;; k" := (bind m (fun x => k))
  (at level 61, m at next level, right associativity) : prog_scope.
Notation "m ;; k" := (bind m (fun _ => k))
  (at level 61, right associativity) : prog_scope.
Open Scope prog_scope.

Definition raise {A : Type} (e : exn) : M A := fun w => (Raise e, w, []).

Definition running {A : Type} : M A := fun w => (Running, w, []).

(** [try: body / except ...: handler].  [handler e] is [None] when no
    [except] clause matches [e]. *)
Definition try_except {A : Type} (body : M A) (handler : exn -> option (M A)) : M A :=
  fun w =>
    match body w with
    | (Raise e, w1, out1) =>
        match handler e with
        | Some h =>
            match h w1 with
            | (r, w2, out2) => (r, w2, out1 ++ out2)
            end
        | None => (Raise e, w1, out1)
        end
    | other => other
    end.

Definition get_current_relay_state : M bool :=
  fun w => (Val (current_relay_state w), w, []).

Definition assign_current_relay_state (b : bool) : M unit :=
  fun w => (Val tt, set_current_relay_state b w, []).

(** One I/O call.  Ctrl+C is delivered at an I/O call, before the call takes
    effect: with [pending = Some 0] the call raises [KeyboardInterrupt]
    instead of happening, and the interrupt is consumed. *)
Definition io (e : event) : M unit :=
  fun w =>
    match pending w with
    | None => (Val tt, w, [e])
    | Some (S k) => (Val tt, World (current_relay_state w) (reads w) (Some k), [e])
    | Some O => (Raise KeyboardInterrupt, World (current_relay_state w) (reads w) None, [])
    end.

Definition print (s : fstring) : M unit := io (Print s).
Definition sleep (seconds : float) : M unit := io (Sleep seconds).
Definition relay_toggle : M unit := io RelayToggle.
Definition led_value (v : Z) : M unit := io (LedValue v).

Section Program.

(** The environment of the script: the builtin [round(x, ndigits)] on floats
    and the sensor driver, given by the answer to its [n]-th read. *)
Variable round : float -> Z -> float.
Variable dht_sensor : nat -> reply.

(** [dht_sensor.read()] *)
Definition dht_sensor_read : M (option float * option float) :=
  io SensorRead ;;
  fun w =>
    let w1 := World (current_relay_state w) (S (reads w)) (pending w) in
    match dht_sensor (reads w) with
    | Reply temperature humidity => (Val (temperature, humidity), w1, [])
    | Fault msg => (Raise (SensorException msg), w1, [])
    end.

(** [round(x, ndigits)] where [x] may be [None]: Python raises [TypeError]. *)
Definition round_value (x : option float) (ndigits : Z) : M float :=
  match x with
  | Some v => ret (round v ndigits)
  | None => raise TypeError
  end.

(** ** The functions of the script *)

Definition blink_led (led_state : Z) : M unit := led_value led_state.

Definition read_temperature : M (option float) :=
  try_except
    (r <- dht_sensor_read ;;
     match fst r with
     | None =>
         print [Text "Failed to read temperature from sensor"] ;;
         ret None
     | Some temperature => ret (Some (round temperature 1))
     end)
    (fun error =>
       if is_Exception error
       then Some (print [Text "Sensor Error: "; Err error] ;; ret None)
       else None).

Definition control_relay_based_on_temperature (temperature : float) : M unit :=
  if float_gt temperature TEMPERATURE_THRESHOLD then
    state <- get_current_relay_state ;;
    if negb state then
      print [Text "Temperature "; Num temperature; Text "°C > ";
             Num TEMPERATURE_THRESHOLD; Text "°C"] ;;
      print [Text "ACTIVATING RELAY - Turning on cooling device"] ;;
      relay_toggle ;;
      assign_current_relay_state true ;;
      blink_led ON_STATE
    else ret tt
  else
    state <- get_current_relay_state ;;
    if state then
      print [Text "Temperature "; Num temperature; Text "°C ≤ ";
             Num TEMPERATURE_THRESHOLD; Text "°C"] ;;
      print [Text "DEACTIVATING RELAY - Turning off cooling device"] ;;
      relay_toggle ;;
      assign_current_relay_state false ;;
      blink_led OFF_STATE
    else ret tt.

Definition display_status (temperature : option float) (humidity : float) : M unit :=
  print [Text "\n"; Rule 40] ;;
  print [Text "TEMPERATURE CONTROL SYSTEM"] ;;
  print [Rule 40] ;;
  match temperature with
  | Some t =>
      print [Text "Current Temperature: "; Num t; Text "°C"] ;;
      print [Text "Current Humidity: "; Num humidity; Text "%"] ;;
      print [Text "Temperature Threshold: "; Num TEMPERATURE_THRESHOLD; Text "°C"] ;;
      state <- get_current_relay_state ;;
      print [Text "Relay Status: "; Text (if state then "ON" else "OFF")] ;;
      if float_gt t TEMPERATURE_THRESHOLD
      then print [Text "Action: Cooling required"]
      else print [Text "Action: Temperature normal"]
  | None => print [Text "No sensor data available"]
  end ;;
  print [Rule 40].

(** One iteration of the [while True] loop of [main]; [reading_count] is the
    counter after its increment. *)
Definition cycle (reading_count : nat) : M unit :=
  print [Text "\nReading #"; Int reading_count] ;;
  temperature <- read_temperature ;;
  match temperature with
  | Some t =>
      r <- dht_sensor_read ;;
      humidity <- round_value (snd r) 1 ;;
      control_relay_based_on_temperature t ;;
      display_status (Some t) humidity
  | None => print [Text "Retrying sensor reading..."]
  end ;;
  sleep READ_INTERVAL.

Fixpoint main_loop (fuel : nat) (reading_count : nat) : M unit :=
  match fuel with
  | O => running
  | S fuel' =>
      cycle (S reading_count) ;;
      main_loop fuel' (S reading_count)
  end.

Definition main (fuel : nat) : M unit :=
  print [Text "Starting DHT22 Temperature Controller"] ;;
  print [Text "Temperature threshold: "; Num TEMPERATURE_THRESHOLD; Text "°C"] ;;
  print [Text "Reading interval: "; Num READ_INTERVAL; Text " seconds"] ;;
  print [Text "Relay will activate when temperature > threshold"] ;;
  print [Text "Press Ctrl+C to stop the program\n"] ;;
  main_loop fuel 0.

(** ** The [if __name__ == "__main__":] block *)

Definition startup : M unit :=
  print [Text "Initializing system..."] ;;
  state <- get_current_relay_state ;;
  (if state then relay_toggle ;; assign_current_relay_state false else ret tt) ;;
  print [Text "System initialized - Relay is OFF"].

Definition on_keyboard_interrupt : M unit :=
  print [Text "\n\nProgram stopped by user"] ;;
  state <- get_current_relay_state ;;
  (if state then relay_toggle ;; print [Text "Relay turned OFF for safety"] else ret tt) ;;
  print [Text "Goodbye!"].

Definition on_exception (e : exn) : M unit :=
  print [Text "\nUnexpected error: "; Err e] ;;
  state <- get_current_relay_state ;;
  if state then relay_toggle else ret tt.

Definition script (fuel : nat) : M unit :=
  try_except
    (startup ;; main fuel)
    (fun e =>
       match e with
       | KeyboardInterrupt => Some on_keyboard_interrupt
       | _ => Some (on_exception e)
       end).

End Program.

(** The world after the module-level statements have run:
    [current_relay_state = False], no sensor read yet. *)
Definition module_init (ctrl_c : option nat) : world := World false 0 ctrl_c.

(** ** Driving the controller with a list of readings

    [feed temperatures w] calls [control_relay_based_on_temperature] once per
    temperature, in order, starting in world [w].  It returns the output of
    each call and the world after the last one.  A call that does not return
    ends the run. *)
Fixpoint feed (temperatures : list float) (w : world) : list (list event) * world :=
  match temperatures with
  | [] => ([], w)
  | t :: rest =>
      match control_relay_based_on_temperature t w with
      | (Val _, w1, out) =>
          let (outs, w2) := feed rest w1 in (out :: outs, w2)
      | (_, w1, out) => ([out], w1)
      end
  end.

(** ** Reading an output *)

(** The temperature exceeds the threshold, as the source tests it. *)
Definition exceeds (t : float) : bool := float_gt t TEMPERATURE_THRESHOLD.

Definition is_actuation (e : event) : bool :=
  match e with
  | RelayToggle | LedValue _ => true
  | _ => false
  end.

(** The calls to the relay and the LED in an output, in order. *)
Definition actuation (out : list event) : list event := filter is_actuation out.

(** The ON command of the source: toggle the relay, light the LED. *)
Definition command_ON : list event := [RelayToggle; LedValue ON_STATE].

(** The OFF command of the source: toggle the relay, put the LED out. *)
Definition command_OFF : list event := [RelayToggle; LedValue OFF_STATE].

Definition is_toggle (e : event) : bool :=
  match e with RelayToggle => true | _ => false end.

Definition is_sensor_read (e : event) : bool :=
  match e with SensorRead => true | _ => false end.

(** Number of [relay.toggle()] calls in an output. *)
Definition toggles (out : list event) : nat := length (filter is_toggle out).

(** Number of [dht_sensor.read()] calls in an output. *)
Definition sensor_reads (out : list event) : nat := length (filter is_sensor_read out).

(** Modelled from the spec: the PCF8574 relay driver is not among the sources;
    its [toggle()] inverts the output, it has no absolute set.  The relay
    contact after [out], when it was [initial] before. *)
Definition relay_output (initial : bool) (out : list event) : bool :=
  fold_left (fun s e => if is_toggle e then negb s else s) out initial.

(** The sensor read cannot give a temperature: [read()] raised, or the
    temperature it returned is [None]. *)
Definition acquisition_fails (r : reply) : bool :=
  match r with
  | Reply (Some _) _ => false
  | Reply None _ => true
  | Fault _ => true
  end.

(** The line [read_temperature] prints when the read gives no temperature. *)
Definition failure_report (r : reply) : fstring :=
  match r with
  | Fault msg => [Text "Sensor Error: "; Err (SensorException msg)]
  | Reply _ _ => [Text "Failed to read temperature from sensor"]
  end.

(** The loop markers and actuator calls of an output: what was commanded, and
    during which reading. *)
Definition is_milestone (e : event) : bool :=
  match e with
  | Print [Text _; Int _] => true
  | RelayToggle | LedValue _ => true
  | _ => false
  end.

Definition timeline (out : list event) : list event := filter is_milestone out.

(** The status block [display_status] prints for temperature [t], humidity
    [h] and flag [relay_on], line by line. *)
Definition status_report (t h : float) (relay_on : bool) : list event :=
  [Print [Text "\n"; Rule 40];
   Print [Text "TEMPERATURE CONTROL SYSTEM"];
   Print [Rule 40];
   Print [Text "Current Temperature: "; Num t; Text "°C"];
   Print [Text "Current Humidity: "; Num h; Text "%"];
   Print [Text "Temperature Threshold: "; Num TEMPERATURE_THRESHOLD; Text "°C"];
   Print [Text "Relay Status: "; Text (if relay_on then "ON" else "OFF")];
   Print [Text (if float_gt t TEMPERATURE_THRESHOLD
                then "Action: Cooling required"
                else "Action: Temperature normal")];
   Print [Rule 40]].

(** ** Predicates on computations *)

(** [delivers m]: when [m] ends with [KeyboardInterrupt], the interrupt has
    been consumed, none is pending any more. *)
Definition delivers {A : Type} (m : M A) : Prop :=
  forall (w w1 : world) (out : list event),
    m w = (Raise KeyboardInterrupt, w1, out) -> pending w1 = None.

(** [costs n m]: [m] never leaves the loop running; when it returns it has
    used at least [n] of the I/O calls left before a pending Ctrl+C; when it
    raises an [Exception] the interrupt is still pending, no later than
    before. *)
Definition costs {A : Type} (n : nat) (m : M A) : Prop :=
  forall w : world,
    match m w with
    | (Val _, w1, _) =>
        forall k, pending w = Some k ->
                  exists k', pending w1 = Some k' /\ k' + n <= k
    | (Raise e, w1, _) =>
        is_Exception e = true ->
        forall k, pending w = Some k ->
                  exists k', pending w1 = Some k' /\ k' <= k
    | (Running, _, _) => False
    end.

(** [tracks m]: however [m] ends, a relay that was in the position given by
    the flag before [m] is in the position given by the flag after it. *)
Definition tracks {A : Type} (m : M A) : Prop :=
  forall w : world,
    relay_output (current_relay_state w) (snd (m w))
    = current_relay_state (snd (fst (m w))).

(** [loops m]: [m] does not return; it raises or is still running. *)
Definition loops {A : Type} (m : M A) : Prop :=
  forall (w : world) (a : A), fst (fst (m w)) <> Val a.

(** [interrupt_only m]: the only exception that leaves [m] is
    [KeyboardInterrupt]. *)
Definition interrupt_only {A : Type} (m : M A) : Prop :=
  forall (w w1 : world) (e : exn) (out : list event),
    m w = (Raise e, w1, out) -> e = KeyboardInterrupt.

(** ** A concrete environment for closed examples *)

(** [nearbyint] in the default rounding mode, for binary64. *)
Definition nearbyint (y : float) : float :=
  let two52 := 4503599627370496%float in
  if PrimFloat.ltb (PrimFloat.abs y) two52 then
    let r := PrimFloat.sub (PrimFloat.add (PrimFloat.abs y) two52) two52 in
    if PrimFloat.ltb y 0%float then PrimFloat.opp r else r
  else y.

Fixpoint pow10 (n : nat) : float :=
  match n with
  | O => 1%float
  | S k => PrimFloat.mul 10%float (pow10 k)
  end.

(** The builtin [round(x, ndigits)] on a float as MicroPython computes it:
    [nearbyint(x * mult) / mult] with [mult = pow(10, ndigits)]. *)
Definition micropython_round (x : float) (ndigits : Z) : float :=
  let mult :=
    if (ndigits <? 0)%Z
    then PrimFloat.div 1%float (pow10 (Z.to_nat (- ndigits)))
    else pow10 (Z.to_nat ndigits) in
  PrimFloat.div (nearbyint (PrimFloat.mul x mult)) mult.

(** A sensor that answers every read with the same values. *)
Definition steady (temperature humidity : float) : nat -> reply :=
  fun _ => Reply (Some temperature) (Some humidity).

(** A sensor that goes through [temperatures], answering two reads in a row
    with each of them (a successful cycle reads twice), at 50 % humidity;
    after the list it times out. *)
Definition replay (temperatures : list float) : nat -> reply :=
  fun n =>
    match nth_error temperatures (Nat.div n 2) with
    | Some t => Reply (Some t) (Some 50.0%float)
    | None => Fault "timeout"
    end.

(** A sensor whose first read succeeds and whose every later read returns
    [(None, None)]. *)
Definition one_good_read (temperature humidity : float) : nat -> reply :=
  fun n =>
    match n with
    | O => Reply (Some temperature) (Some humidity)
    | S _ => Reply None None
    end.

(** The reading stream of the scenario in the specification. *)
Definition scenario_readings : list float :=
  [28.0; 31.0; 31.5; 29.9; 30.0; 30.1]%float.

(** ** More readings of an output *)

Definition is_sleep (e : event) : bool :=
  match e with Sleep _ => true | _ => false end.

(** Number of [sleep(...)] calls in an output. *)
Definition sleeps (out : list event) : nat := length (filter is_sleep out).

(** The values written to the LED, in order. *)
Fixpoint led_writes (out : list event) : list Z :=
  match out with
  | [] => []
  | LedValue v :: rest => v :: led_writes rest
  | _ :: rest => led_writes rest
  end.

(** The level of the LED pin after [out], when it was [initial] before. *)
Definition led_output (initial : Z) (out : list event) : Z :=
  last (led_writes out) initial.

(** The LED level that shows a relay flag. *)
Definition led_level (relay_on : bool) : Z :=
  if relay_on then ON_STATE else OFF_STATE.

(** ** Python helpers shared by the other two scripts *)

(** [s * n] on a string. *)
Fixpoint str_mul (s : string) (n : nat) : string :=
  match n with
  | O => EmptyString
  | S k => append s (str_mul s k)
  end.

(** [for x in items: body(x)] *)
Fixpoint for_each {A : Type} (items : list A) (body : A -> M unit) : M unit :=
  match items with
  | [] => ret tt
  | x :: rest => body x ;; for_each rest body
  end.

(** ** dht22_sensor_read.py: the sensor monitor *)

Module Dht22SensorRead.

Definition DHT_PIN : Z := 10.
Definition READ_INTERVAL : float := 5.0%float.
Definition DECIMAL_PLACES : Z := 2.

Section Program.

Variable round : float -> Z -> float.
Variable dht_sensor : nat -> reply.

Definition read_sensor_data : M (option float * option float) :=
  try_except
    (r <- dht_sensor_read dht_sensor ;;
     match fst r, snd r with
     | Some temperature, Some humidity =>
         let temperature := round temperature DECIMAL_PLACES in
         let humidity := round humidity DECIMAL_PLACES in
         print [Text " Temperature: "; Num temperature; Text " °C"] ;;
         print [Text " Humidity: "; Num humidity; Text " %"] ;;
         print [Text (str_mul "─" 30)] ;;
         ret (Some temperature, Some humidity)
     | _, _ =>
         print [Text "Error: Failed to read from DHT22 sensor"] ;;
         ret (None, None)
     end)
    (fun error =>
       if is_Exception error
       then Some (print [Text "Sensor Error: "; Err error] ;; ret (None, None))
       else None).

(** One iteration of the [while True] loop of [main]; the integer literals
    30 and 80 are compared as floats. *)
Definition cycle (reading_count : nat) : M unit :=
  print [Text "Reading #"; Int reading_count; Text ":"] ;;
  r <- read_sensor_data ;;
  match fst r, snd r with
  | Some temperature, Some humidity =>
      if float_gt temperature 30%float
      then print [Text "Hot environment detected!"]
      else if float_gt humidity 80%float
           then print [Text "High humidity detected!"]
           else ret tt
  | _, _ => ret tt
  end ;;
  sleep READ_INTERVAL.

Fixpoint main_loop (fuel : nat) (reading_count : nat) : M unit :=
  match fuel with
  | O => running
  | S fuel' =>
      cycle (S reading_count) ;;
      main_loop fuel' (S reading_count)
  end.

Definition main (fuel : nat) : M unit :=
  print [Text "DHT22 Environmental Sensor Monitor"] ;;
  print [Text "=================================="] ;;
  print [Text "Reading sensor on GPIO pin "; Int (Z.to_nat DHT_PIN)] ;;
  print [Text "Update interval: "; Num READ_INTERVAL; Text " seconds"] ;;
  print [Text "Press Ctrl+C to stop the program"] ;;
  print [Text (str_mul "─" 50)] ;;
  main_loop fuel 0.

(** The [if __name__ == "__main__":] block. *)
Definition script (fuel : nat) : M unit :=
  try_except
    (main fuel)
    (fun e =>
       match e with
       | KeyboardInterrupt => Some (print [Text "\nProgram stopped by user"])
       | _ => Some (print [Text "Unexpected error: "; Err e])
       end).

End Program.

End Dht22SensorRead.

(** ** led_blink.py: the blink demo *)

Module LedBlink.

Definition LED_PIN : Z := 12.
Definition BLINK_COUNT : nat := 5.
Definition ON_DURATION : float := 2.0%float.
Definition OFF_DURATION : float := 2.0%float.

Definition blink_led : M unit :=
  led_value 1 ;;
  sleep ON_DURATION ;;
  led_value 0 ;;
  sleep OFF_DURATION.

(** [range(n)] *)
Definition range (n : nat) : list nat := seq 0 n.

Definition main : M unit :=
  print [Text "Starting LED blink program..."] ;;
  print [Text "LED will blink "; Int BLINK_COUNT; Text " times"] ;;
  for_each (range BLINK_COUNT)
           (fun blink_number =>
              print [Text "Blink #"; Int (blink_number + 1)] ;;
              blink_led) ;;
  print [Text "Program completed!"].

End LedBlink.

(** * Properties *)

(** ** The controller without a pending interrupt *)

(** With no Ctrl+C pending, a call of the controller returns, leaves the flag
    equal to the comparison it made, and reads no sensor. *)
Lemma control_returns (t : float) (f : bool) (r : nat) :
  control_relay_based_on_temperature t (World f r None)
  = (Val tt, World (exceeds t) r None,
     snd (control_relay_based_on_temperature t (World f r None))).
Proof.
  unfold control_relay_based_on_temperature, exceeds.
  destruct (float_gt t TEMPERATURE_THRESHOLD), f; reflexivity.
Qed.

(** What the call sends to the relay and the LED, by the flag before the call
    and the comparison. *)
Lemma control_actuation (t : float) (f : bool) (r : nat) :
  actuation (snd (control_relay_based_on_temperature t (World f r None)))
  = match f, exceeds t with
    | false, true => command_ON
    | true, false => command_OFF
    | _, _ => []
    end.
Proof.
  unfold control_relay_based_on_temperature, exceeds.
  destruct (float_gt t TEMPERATURE_THRESHOLD), f; reflexivity.
Qed.

Lemma last_cons_default {A : Type} (a d : A) (l : list A) :
  last (a :: l) d = last l a.
Proof.
  revert a d; induction l as [|b l IH]; intros a d; [reflexivity|].
  change (last (a :: b :: l) d) with (last (b :: l) d).
  rewrite (IH b d), (IH b a). reflexivity.
Qed.

(** The output of the call made for the reading that follows [before]. *)
Lemma feed_nth (before : list float) :
  forall (f : bool) (r : nat) (t : float) (after : list float),
    nth_error (fst (feed (before ++ t :: after) (World f r None))) (length before)
    = Some (snd (control_relay_based_on_temperature t
                   (World (last (map exceeds before) f) r None))).
Proof.
  induction before as [|b before IH]; intros f r t after.
  - simpl. rewrite control_returns.
    destruct (feed after (World (exceeds t) r None)); reflexivity.
  - simpl app. simpl length. cbn [feed]. rewrite control_returns.
    specialize (IH (exceeds b) r t after).
    destruct (feed (before ++ t :: after) (World (exceeds b) r None)) as [outs w2].
    cbn [fst nth_error] in *. rewrite IH.
    cbn [map]. rewrite last_cons_default. reflexivity.
Qed.

(** The world after a run of [feed]: the flag is the comparison made for
    the last reading. *)
Lemma feed_world (temperatures : list float) :
  forall (f : bool) (r : nat),
    snd (feed temperatures (World f r None))
    = World (last (map exceeds temperatures) f) r None.
Proof.
  induction temperatures as [|t rest IH]; intros f r; [reflexivity|].
  cbn [feed]. rewrite control_returns.
  specialize (IH (exceeds t) r).
  destruct (feed rest (World (exceeds t) r None)) as [outs w2].
  cbn [snd] in *. rewrite IH. cbn [map]. rewrite last_cons_default. reflexivity.
Qed.

Lemma relay_output_app (initial : bool) (a b : list event) :
  relay_output initial (a ++ b) = relay_output (relay_output initial a) b.
Proof. apply fold_left_app. Qed.

Lemma toggles_app (a b : list event) : toggles (a ++ b) = toggles a + toggles b.
Proof. unfold toggles. rewrite filter_app. apply length_app. Qed.

Lemma actuation_app (a b : list event) : actuation (a ++ b) = actuation a ++ actuation b.
Proof. apply filter_app. Qed.

Lemma sensor_reads_app (a b : list event) :
  sensor_reads (a ++ b) = sensor_reads a + sensor_reads b.
Proof. unfold sensor_reads. rewrite filter_app. apply length_app. Qed.

(** One call toggles the relay once when the flag flips and not at all when
    it keeps its value. *)
Lemma control_toggles (t : float) (f : bool) (r : nat) :
  toggles (snd (control_relay_based_on_temperature t (World f r None)))
  = if xorb f (exceeds t) then 1 else 0.
Proof.
  unfold control_relay_based_on_temperature, exceeds.
  destruct (float_gt t TEMPERATURE_THRESHOLD), f; reflexivity.
Qed.

Lemma control_relay_output (t : float) (f : bool) (r : nat) (relay : bool) :
  relay_output relay (snd (control_relay_based_on_temperature t (World f r None)))
  = xorb relay (xorb f (exceeds t)).
Proof.
  unfold control_relay_based_on_temperature, exceeds.
  destruct (float_gt t TEMPERATURE_THRESHOLD), f, relay; reflexivity.
Qed.

(** Over a whole run of [feed] the relay has moved from its initial
    contact exactly as often, modulo two, as the flag has changed. *)
Lemma feed_relay_output (temperatures : list float) :
  forall (f : bool) (r : nat) (relay : bool),
    relay_output relay (concat (fst (feed temperatures (World f r None))))
    = xorb relay (xorb f (current_relay_state (snd (feed temperatures (World f r None))))).
Proof.
  induction temperatures as [|t rest IH]; intros f r relay.
  - simpl. destruct relay, f; reflexivity.
  - cbn [feed]. rewrite control_returns.
    specialize (IH (exceeds t) r
                  (relay_output relay
                     (snd (control_relay_based_on_temperature t (World f r None))))).
    destruct (feed rest (World (exceeds t) r None)) as [outs w2].
    cbn [fst snd concat] in *. rewrite relay_output_app, IH, control_relay_output.
    destruct relay, f, (exceeds t), (current_relay_state w2); reflexivity.
Qed.

Lemma feed_toggles (temperatures : list float) :
  forall (f : bool) (r : nat),
    Nat.odd (toggles (concat (fst (feed temperatures (World f r None)))))
    = xorb f (current_relay_state (snd (feed temperatures (World f r None)))).
Proof.
  induction temperatures as [|t rest IH]; intros f r.
  - simpl. destruct f; reflexivity.
  - cbn [feed]. rewrite control_returns.
    specialize (IH (exceeds t) r).
    destruct (feed rest (World (exceeds t) r None)) as [outs w2].
    cbn [fst snd concat] in *. rewrite toggles_app, Nat.odd_add, IH, control_toggles.
    destruct f, (exceeds t), (current_relay_state w2); reflexivity.
Qed.

(** C1.  Feed the controller any sequence of readings, starting with the
    flag False (relay idle).  Take any reading [t] of the sequence and let
    [was_above] tell whether the reading just before it exceeded the
    threshold (False when [t] is the first reading).  The call made for [t]
    issues the ON command (relay toggle, LED on) exactly when [t] exceeds the
    threshold and the previous reading did not; it issues the OFF command
    (relay toggle, LED off) exactly when [t] is at or below the threshold and
    the previous reading exceeded it; and when [t] is on the same side as the
    previous reading it sends nothing to the relay or the LED. *)
Theorem commands_only_on_crossings :
  forall (before : list float) (t : float) (after : list float) (r : nat),
    let was_above := last (map exceeds before) false in
    exists out : list event,
      nth_error (fst (feed (before ++ t :: after) (World false r None)))
                (length before) = Some out /\
      (actuation out = command_ON <-> exceeds t = true /\ was_above = false) /\
      (actuation out = command_OFF <-> exceeds t = false /\ was_above = true) /\
      (exceeds t = was_above -> actuation out = []) /\
      (actuation out = command_ON \/ actuation out = command_OFF \/ actuation out = []).
Proof.
  intros before t after r was_above.
  eexists. split; [apply feed_nth|].
  fold was_above. rewrite control_actuation.
  unfold command_ON, command_OFF.
  destruct was_above, (exceeds t); repeat split; intros;
    try discriminate; try tauto;
    try match goal with H : _ /\ _ |- _ => destruct H; discriminate end.
Qed.

(** A call that returns has settled the flag on the comparison it made,
    whatever interrupt was pending when it started. *)
Lemma control_settles (t : float) (w w1 : world) (out1 : list event) :
  control_relay_based_on_temperature t w = (Val tt, w1, out1) ->
  current_relay_state w1 = exceeds t /\
  (actuation out1 = command_ON \/ actuation out1 = command_OFF \/ actuation out1 = []).
Proof.
  destruct w as [f r p].
  unfold control_relay_based_on_temperature, exceeds.
  destruct (float_gt t TEMPERATURE_THRESHOLD), f;
    destruct p as [[|[|[|[|k]]]]|]; cbn; intros H; inversion H; subst; cbn;
    auto.
Qed.

(** C4.  If a call of the controller with temperature [t] returns, then a
    second call with the same [t] right after it returns too, sends nothing
    (its output is empty) and leaves the world, flag included, as it found
    it.  The first call sent at most one command: ON, OFF or nothing. *)
Theorem same_reading_twice :
  forall (t : float) (w w1 : world) (out1 : list event),
    control_relay_based_on_temperature t w = (Val tt, w1, out1) ->
    control_relay_based_on_temperature t w1 = (Val tt, w1, []) /\
    (actuation out1 = command_ON \/ actuation out1 = command_OFF \/ actuation out1 = []).
Proof.
  intros t w w1 out1 H.
  destruct (control_settles t w H) as [Hflag Hcmd].
  split; [|exact Hcmd].
  destruct w1 as [f1 r1 p1]. cbn [current_relay_state] in Hflag. subst f1.
  unfold control_relay_based_on_temperature, exceeds.
  destruct (float_gt t TEMPERATURE_THRESHOLD); reflexivity.
Qed.

(** C4 at 31.0 degrees from the initial world: the first call issues the ON
    command, the second nothing. *)
Lemma same_reading_twice_witness :
  control_relay_based_on_temperature 31.0%float (World true 0 None)
  = (Val tt, World true 0 None, []) /\
  (actuation (snd (control_relay_based_on_temperature 31.0%float (module_init None)))
   = command_ON \/
   actuation (snd (control_relay_based_on_temperature 31.0%float (module_init None)))
   = command_OFF \/
   actuation (snd (control_relay_based_on_temperature 31.0%float (module_init None)))
   = []).
Proof.
  apply (@same_reading_twice 31.0%float (module_init None) (World true 0 None)
           (snd (control_relay_based_on_temperature 31.0%float (module_init None)))).
  reflexivity.
Defined.

(** C10.  Run the controller on any sequence of readings from a flag [f0].
    A relay that started in the position the flag says is, after the run,
    again in the position the flag says; a relay that started in the opposite
    position is again in the opposite position, so every command has driven
    it the wrong way; the number of toggles is odd exactly when the flag
    differs from [f0], so with [f0 = False] its parity is the flag.  And each
    single call toggles the relay once if it flips the flag and not at all
    otherwise. *)
Theorem flag_tracks_relay :
  forall (temperatures : list float) (f0 : bool) (r : nat),
    let run := feed temperatures (World f0 r None) in
    let out := concat (fst run) in
    let flag := current_relay_state (snd run) in
    relay_output f0 out = flag /\
    relay_output (negb f0) out = negb flag /\
    Nat.odd (toggles out) = xorb f0 flag /\
    (forall t : float,
        toggles (snd (control_relay_based_on_temperature t (snd run)))
        = if xorb flag
               (current_relay_state
                  (snd (fst (control_relay_based_on_temperature t (snd run)))))
          then 1 else 0).
Proof.
  intros temperatures f0 r run out flag.
  unfold out, flag, run.
  rewrite !feed_relay_output, feed_toggles.
  repeat split.
  - destruct (current_relay_state (snd (feed temperatures (World f0 r None)))), f0;
      reflexivity.
  - destruct (current_relay_state (snd (feed temperatures (World f0 r None)))), f0;
      reflexivity.
  - intros t. rewrite feed_world. rewrite control_returns. cbn [fst snd current_relay_state].
    apply control_toggles.
Qed.

(** C2, as stated, fails: from the initial world the startup block sends
    nothing to the relay, so it does not issue one OFF command. *)
Lemma startup_issues_no_off_command :
  actuation (snd (startup (module_init None))) = [] /\
  toggles (snd (startup (module_init None))) <> 1.
Proof. split; [reflexivity | cbn; discriminate]. Qed.

(** C2, amended.  Whenever Ctrl+C may arrive, the startup block run from the
    initial world (flag False) sends nothing to the relay or the LED, leaves
    the flag False and the relay in the position it had; and the output of
    the whole script begins with the output of the startup block, so this is
    what precedes the first cycle. *)
Theorem startup_leaves_relay_alone :
  forall (round : float -> Z -> float) (dht_sensor : nat -> reply)
         (fuel : nat) (ctrl_c : option nat),
    let out := snd (startup (module_init ctrl_c)) in
    actuation out = [] /\
    toggles out = 0 /\
    current_relay_state (snd (fst (startup (module_init ctrl_c)))) = false /\
    (forall relay : bool, relay_output relay out = relay) /\
    exists rest : list event,
      snd (script round dht_sensor fuel (module_init ctrl_c)) = out ++ rest.
Proof.
  intros round dht_sensor fuel ctrl_c out. unfold out.
  repeat split.
  - destruct ctrl_c as [[|[|k]]|]; reflexivity.
  - destruct ctrl_c as [[|[|k]]|]; reflexivity.
  - destruct ctrl_c as [[|[|k]]|]; reflexivity.
  - intros relay. destruct ctrl_c as [[|[|k]]|]; reflexivity.
  - unfold script, try_except, bind at 1.
    destruct (startup (module_init ctrl_c)) as [[[[]|e|] w1] out1]; cbn [snd].
    + destruct (main round dht_sensor fuel w1) as [[[[]|e|] w2] out2].
      * eexists; reflexivity.
      * destruct e;
          match goal with
          | |- context [?h w2] =>
              destruct (h w2) as [[r3 w3] out3]
          end; rewrite <- app_assoc; eexists; reflexivity.
      * eexists; reflexivity.
    + destruct e;
        match goal with
        | |- context [?h w1] => destruct (h w1) as [[r3 w3] out3]
        end; eexists; reflexivity.
    + exists []. symmetry; apply app_nil_r.
Qed.

(** With no Ctrl+C pending, [display_status] prints the status block and
    changes nothing. *)
Lemma display_status_quiet (t h : float) (f : bool) (r : nat) :
  display_status (Some t) h (World f r None)
  = (Val tt, World f r None, status_report t h f).
Proof.
  unfold display_status, status_report.
  destruct (float_gt t TEMPERATURE_THRESHOLD), f; reflexivity.
Qed.

(** ** One loop iteration *)

Section Cycle.

Variable round : float -> Z -> float.
Variable dht_sensor : nat -> reply.

Lemma read_temperature_ok (f : bool) (r : nat) (raw : float) (h : option float) :
  dht_sensor r = Reply (Some raw) h ->
  read_temperature round dht_sensor (World f r None)
  = (Val (Some (round raw 1)), World f (S r) None, [SensorRead]).
Proof.
  intros H. unfold read_temperature, try_except, bind, dht_sensor_read, bind.
  cbn. rewrite H. reflexivity.
Qed.

Lemma read_temperature_fails (f : bool) (r : nat) :
  acquisition_fails (dht_sensor r) = true ->
  read_temperature round dht_sensor (World f r None)
  = (Val None, World f (S r) None,
     [SensorRead; Print (failure_report (dht_sensor r))]).
Proof.
  intros H. unfold read_temperature, try_except, bind, dht_sensor_read, bind.
  cbn. destruct (dht_sensor r) as [[t|] h|msg]; [discriminate H| |]; reflexivity.
Qed.

(** A cycle whose two reads succeed: the rounded temperature [v] goes to the
    controller and to the status display, and the cycle ends with the sleep. *)
Lemma cycle_success (n : nat) (f : bool) (r : nat)
      (raw : float) (h1 t2 : option float) (h2 : float) :
  dht_sensor r = Reply (Some raw) h1 ->
  dht_sensor (S r) = Reply t2 (Some h2) ->
  cycle round dht_sensor n (World f r None)
  = (Val tt, World (exceeds (round raw 1)) (S (S r)) None,
     [Print [Text "\nReading #"; Int n]; SensorRead; SensorRead]
       ++ snd (control_relay_based_on_temperature (round raw 1) (World f (S (S r)) None))
       ++ status_report (round raw 1) (round h2 1) (exceeds (round raw 1))
       ++ [Sleep READ_INTERVAL]).
Proof.
  intros H1 H2. unfold cycle.
  unfold bind at 1. cbn [print io pending].
  unfold bind at 1. rewrite (read_temperature_ok f H1).
  unfold bind at 1. unfold bind at 1. unfold dht_sensor_read at 1.
  unfold bind at 1. cbn [io pending current_relay_state reads]. rewrite H2.
  cbn [snd round_value]. unfold bind at 1. cbn [ret].
  unfold bind at 1. rewrite control_returns.
  rewrite display_status_quiet. cbn [sleep io pending snd app].
  rewrite <- !app_assoc. reflexivity.
Qed.

(** A cycle whose first read succeeds and whose second read returns no
    humidity: [round(None, 1)] raises [TypeError] out of the cycle, before
    the controller is called. *)
Lemma cycle_humidity_missing (n : nat) (f : bool) (r : nat)
      (raw : float) (h1 t2 : option float) :
  dht_sensor r = Reply (Some raw) h1 ->
  dht_sensor (S r) = Reply t2 None ->
  cycle round dht_sensor n (World f r None)
  = (Raise TypeError, World f (S (S r)) None,
     [Print [Text "\nReading #"; Int n]; SensorRead; SensorRead]).
Proof.
  intros H1 H2. unfold cycle.
  unfold bind at 1. cbn [print io pending].
  unfold bind at 1. rewrite (read_temperature_ok f H1).
  unfold bind at 1. unfold bind at 1. unfold dht_sensor_read at 1.
  unfold bind at 1. cbn [io pending current_relay_state reads]. rewrite H2.
  reflexivity.
Qed.

(** A cycle whose first read succeeds and whose second read raises: the
    exception leaves the cycle, nothing catches it there. *)
Lemma cycle_second_read_raises (n : nat) (f : bool) (r : nat)
      (raw : float) (h1 : option float) (msg : string) :
  dht_sensor r = Reply (Some raw) h1 ->
  dht_sensor (S r) = Fault msg ->
  cycle round dht_sensor n (World f r None)
  = (Raise (SensorException msg), World f (S (S r)) None,
     [Print [Text "\nReading #"; Int n]; SensorRead; SensorRead]).
Proof.
  intros H1 H2. unfold cycle.
  unfold bind at 1. cbn [print io pending].
  unfold bind at 1. rewrite (read_temperature_ok f H1).
  unfold bind at 1. unfold bind at 1. unfold dht_sensor_read at 1.
  unfold bind at 1. cbn [io pending current_relay_state reads]. rewrite H2.
  reflexivity.
Qed.

(** A cycle whose read gives no temperature: the controller is skipped. *)
Lemma cycle_acquisition_fails (n : nat) (f : bool) (r : nat) :
  acquisition_fails (dht_sensor r) = true ->
  cycle round dht_sensor n (World f r None)
  = (Val tt, World f (S r) None,
     [Print [Text "\nReading #"; Int n];
      SensorRead;
      Print (failure_report (dht_sensor r));
      Print [Text "Retrying sensor reading..."];
      Sleep READ_INTERVAL]).
Proof.
  intros H. unfold cycle.
  unfold bind at 1. cbn [print io pending].
  unfold bind at 1. rewrite (read_temperature_fails f r H). reflexivity.
Qed.

Lemma control_sensor_reads (t : float) (f : bool) (r : nat) :
  sensor_reads (snd (control_relay_based_on_temperature t (World f r None))) = 0.
Proof.
  unfold control_relay_based_on_temperature.
  destruct (float_gt t TEMPERATURE_THRESHOLD), f; reflexivity.
Qed.

(** The controller never prints a status line. *)
Lemma control_prints_no_status (t x : float) (f : bool) (r : nat) :
  ~ In (Print [Text "Current Temperature: "; Num x; Text "°C"])
       (snd (control_relay_based_on_temperature t (World f r None))).
Proof.
  unfold control_relay_based_on_temperature.
  destruct (float_gt t TEMPERATURE_THRESHOLD), f; cbn; intuition discriminate.
Qed.

(** C5.  Take a cycle whose sensor read gives no temperature (the read
    raised, or returned [None] for the temperature, so that
    [read_temperature] returns [None]).  Whatever interrupt is pending, the
    cycle leaves the flag as it was and sends nothing to the relay or the
    LED.  With no interrupt pending the cycle returns and its whole output is
    the loop marker, the one sensor read, the failure line of
    [read_temperature], the retry line of [main], and the sleep. *)
Theorem failed_acquisition_skips_controller :
  forall (n : nat) (w : world),
    acquisition_fails (dht_sensor (reads w)) = true ->
    let '(res, w1, out) := cycle round dht_sensor n w in
    current_relay_state w1 = current_relay_state w /\
    actuation out = [] /\
    (pending w = None ->
     res = Val tt /\
     out = [Print [Text "\nReading #"; Int n];
            SensorRead;
            Print (failure_report (dht_sensor (reads w)));
            Print [Text "Retrying sensor reading..."];
            Sleep READ_INTERVAL]).
Proof.
  intros n [f r p] H. cbn [reads] in H.
  unfold cycle, read_temperature, try_except, dht_sensor_read, bind.
  destruct p as [[|[|[|[|[|k]]]]]|]; cbn;
    destruct (dht_sensor r) as [[t|] h|msg]; try discriminate H; cbn;
    repeat split; auto; intros; discriminate.
Qed.

(** C7, amended.  With no interrupt pending, [read_temperature] calls the
    sensor exactly once, with no retry.  A cycle whose acquisition fails
    calls it once in all; a cycle whose acquisition succeeds calls it twice:
    [main] reads the sensor again to get the humidity for the display. *)
Theorem sensor_reads_per_cycle :
  forall (n : nat) (f : bool) (r : nat),
    sensor_reads (snd (read_temperature round dht_sensor (World f r None))) = 1 /\
    sensor_reads (snd (cycle round dht_sensor n (World f r None)))
    = if acquisition_fails (dht_sensor r) then 1 else 2.
Proof.
  intros n f r. split.
  - destruct (dht_sensor r) as [[raw|] h1|msg] eqn:E1.
    + rewrite (read_temperature_ok f E1). reflexivity.
    + rewrite read_temperature_fails by (rewrite E1; reflexivity). reflexivity.
    + rewrite read_temperature_fails by (rewrite E1; reflexivity). reflexivity.
  - destruct (dht_sensor r) as [[raw|] h1|msg] eqn:E1.
    + destruct (dht_sensor (S r)) as [t2 [h2|]|msg] eqn:E2.
      * rewrite (cycle_success n f E1 E2). cbn [snd acquisition_fails].
        rewrite !sensor_reads_app, control_sensor_reads. reflexivity.
      * rewrite (cycle_humidity_missing n f E1 E2). reflexivity.
      * rewrite (cycle_second_read_raises n f E1 E2). reflexivity.
    + rewrite cycle_acquisition_fails by (rewrite E1; reflexivity). reflexivity.
    + rewrite cycle_acquisition_fails by (rewrite E1; reflexivity). reflexivity.
Qed.

(** C8.  Take a cycle in which both sensor reads succeed, with no interrupt
    pending, and let [raw] be the temperature the sensor returned.
    [read_temperature] returns [v = round(raw, 1)], rounded once.  The cycle
    returns; the flag after it is the comparison [v > TEMPERATURE_THRESHOLD];
    what it sends to the relay and the LED is what the controller sends when
    called with [v]; the only temperature on a "Current Temperature" line of
    its output is [v]; and the relay status it displays is the outcome of
    comparing that same [v] with the threshold. *)
Theorem rounded_once_compared_and_displayed :
  forall (n : nat) (f : bool) (r : nat)
         (raw : float) (h1 t2 : option float) (h2 : float),
    dht_sensor r = Reply (Some raw) h1 ->
    dht_sensor (S r) = Reply t2 (Some h2) ->
    let v := round raw 1 in
    let '(res, w1, out) := cycle round dht_sensor n (World f r None) in
    fst (fst (read_temperature round dht_sensor (World f r None))) = Val (Some v) /\
    res = Val tt /\
    current_relay_state w1 = float_gt v TEMPERATURE_THRESHOLD /\
    actuation out
    = actuation (snd (control_relay_based_on_temperature v (World f (S (S r)) None))) /\
    (forall x : float,
        In (Print [Text "Current Temperature: "; Num x; Text "°C"]) out <-> x = v) /\
    In (Print [Text "Relay Status: ";
               Text (if float_gt v TEMPERATURE_THRESHOLD then "ON" else "OFF")]) out.
Proof.
  intros n f r raw h1 t2 h2 H1 H2 v.
  rewrite (cycle_success n f H1 H2). fold v.
  rewrite (read_temperature_ok f H1). fold v.
  split; [reflexivity|]. split; [reflexivity|]. split; [reflexivity|].
  split; [|split].
  - rewrite !actuation_app. cbn [actuation filter is_actuation app].
    rewrite app_nil_r. reflexivity.
  - intros x. split.
    + intros H. apply in_app_or in H. destruct H as [H|H].
      { cbn in H. intuition discriminate. }
      apply in_app_or in H. destruct H as [H|H].
      { exfalso. exact (control_prints_no_status _ _ _ _ H). }
      apply in_app_or in H. destruct H as [H|H].
      * unfold status_report in H. cbn [In] in H.
        repeat (destruct H as [H|H]; [try discriminate H|]);
          try contradiction.
        inversion H. reflexivity.
      * cbn in H. intuition discriminate.
    + intros ->. apply in_or_app. right. apply in_or_app. right.
      apply in_or_app. left. unfold status_report. cbn [In]. auto 10.
  - apply in_or_app. right. apply in_or_app. right.
    apply in_or_app. left. unfold status_report, exceeds. cbn [In]. auto 10.
Qed.

End Cycle.

(** C5 on a sensor that always times out, first cycle from the initial
    world. *)
Lemma failed_acquisition_skips_controller_witness :
  acquisition_fails (replay [] (reads (module_init None))) = true /\
  let '(res, w1, out) := cycle micropython_round (replay []) 1 (module_init None) in
  current_relay_state w1 = current_relay_state (module_init None) /\
  actuation out = [] /\
  (pending (module_init None) = None ->
   res = Val tt /\
   out = [Print [Text "\nReading #"; Int 1];
          SensorRead;
          Print (failure_report (replay [] (reads (module_init None))));
          Print [Text "Retrying sensor reading..."];
          Sleep READ_INTERVAL]).
Proof.
  split; [reflexivity|].
  exact (failed_acquisition_skips_controller micropython_round (replay []) 1
           (module_init None) eq_refl).
Defined.

(** C7, as stated, fails: a cycle on a working sensor reads it twice. *)
Lemma successful_cycle_reads_twice :
  sensor_reads
    (snd (cycle micropython_round (steady 28.0 50.0) 1 (module_init None))) = 2 /\
  sensor_reads
    (snd (cycle micropython_round (steady 28.0 50.0) 1 (module_init None))) <> 1.
Proof. split; [reflexivity | vm_compute; discriminate]. Qed.

(** C8 on a sensor that reports 31.26 degrees, first cycle from the initial
    world: 31.3 is compared and displayed. *)
Lemma rounded_once_compared_and_displayed_witness :
  steady 31.26 50.0 0 = Reply (Some 31.26%float) (Some 50.0%float) /\
  steady 31.26 50.0 1 = Reply (Some 31.26%float) (Some 50.0%float) /\
  let v := micropython_round 31.26 1 in
  let '(res, w1, out) :=
    cycle micropython_round (steady 31.26 50.0) 1 (World false 0 None) in
  fst (fst (read_temperature micropython_round (steady 31.26 50.0) (World false 0 None)))
  = Val (Some v) /\
  res = Val tt /\
  current_relay_state w1 = float_gt v TEMPERATURE_THRESHOLD /\
  actuation out
  = actuation (snd (control_relay_based_on_temperature v (World false 2 None))) /\
  (forall x : float,
      In (Print [Text "Current Temperature: "; Num x; Text "°C"]) out <-> x = v) /\
  In (Print [Text "Relay Status: ";
             Text (if float_gt v TEMPERATURE_THRESHOLD then "ON" else "OFF")]) out.
Proof.
  split; [reflexivity|]. split; [reflexivity|].
  exact (@rounded_once_compared_and_displayed micropython_round (steady 31.26 50.0)
           1 false 0 31.26%float (Some 50.0%float) (Some 31.26%float) 50.0%float
           eq_refl eq_refl).
Defined.

(** C6 at its failing input: the first read of the first cycle succeeds and
    the second read, made by [main] for the humidity, returns [(None, None)].
    [round(None, 1)] raises [TypeError] outside any [try] of the loop; the
    exception leaves [main], the script reports it and ends.  There is no
    second cycle, however much fuel the loop has. *)
Lemma second_read_failure_ends_script :
  forall fuel : nat,
    script micropython_round (one_good_read 31.0 50.0) (S fuel) (module_init None)
    = (Val tt, World false 2 None,
       [Print [Text "Initializing system..."];
        Print [Text "System initialized - Relay is OFF"];
        Print [Text "Starting DHT22 Temperature Controller"];
        Print [Text "Temperature threshold: "; Num TEMPERATURE_THRESHOLD; Text "°C"];
        Print [Text "Reading interval: "; Num READ_INTERVAL; Text " seconds"];
        Print [Text "Relay will activate when temperature > threshold"];
        Print [Text "Press Ctrl+C to stop the program\n"];
        Print [Text "\nReading #"; Int 1];
        SensorRead;
        SensorRead;
        Print [Text "\nUnexpected error: "; Err TypeError]]).
Proof. intros fuel. reflexivity. Qed.

(** C9, as stated, fails: in the scenario nothing is sent to the relay at
    startup, and the commands of the run are ON, OFF, ON, three toggles in
    all; the sequence does not begin with an OFF. *)
Lemma scenario_has_no_startup_off :
  actuation (snd (startup (module_init None))) = [] /\
  actuation (snd (script micropython_round (replay scenario_readings) 6
                    (module_init None)))
  = command_ON ++ command_OFF ++ command_ON /\
  actuation (snd (script micropython_round (replay scenario_readings) 6
                    (module_init None)))
  <> command_OFF ++ command_ON ++ command_OFF.
Proof.
  split; [reflexivity|]. split; [reflexivity|]. vm_compute. discriminate.
Qed.

(** C9, amended.  With threshold 30.0 and the readings 28.0, 31.0, 31.5,
    29.9, 30.0, 30.1 processed from startup, nothing is sent to the relay at
    startup; the ON command is issued during the second reading (31.0), the
    OFF command during the fourth (29.9) and a second ON command during the
    sixth (30.1); the readings 28.0, 31.5 and 30.0 issue nothing.  This holds
    for the whole script on a sensor that replays the readings, and for the
    controller called on the readings directly. *)
Theorem scenario_commands :
  timeline (snd (script micropython_round (replay scenario_readings) 6
                   (module_init None)))
  = [Print [Text "\nReading #"; Int 1];
     Print [Text "\nReading #"; Int 2]; RelayToggle; LedValue ON_STATE;
     Print [Text "\nReading #"; Int 3];
     Print [Text "\nReading #"; Int 4]; RelayToggle; LedValue OFF_STATE;
     Print [Text "\nReading #"; Int 5];
     Print [Text "\nReading #"; Int 6]; RelayToggle; LedValue ON_STATE] /\
  map actuation
      (fst (feed scenario_readings (snd (fst (startup (module_init None))))))
  = [[]; command_ON; []; command_OFF; []; command_ON].
Proof. split; reflexivity. Qed.

(** ** Ctrl+C *)

Create HintDb delivers.

Lemma delivers_ret {A : Type} (a : A) : delivers (ret a).
Proof. intros w w1 out H. discriminate H. Qed.

Lemma delivers_raise {A : Type} (e : exn) :
  is_Exception e = true -> delivers (@raise A e).
Proof. intros He w w1 out H. inversion H; subst. discriminate He. Qed.

Lemma delivers_io (e : event) : delivers (io e).
Proof.
  intros w w1 out. unfold io.
  destruct (pending w) as [[|k]|]; intros H; inversion H; reflexivity.
Qed.

Lemma delivers_get : delivers get_current_relay_state.
Proof. intros w w1 out H. discriminate H. Qed.

Lemma delivers_assign (b : bool) : delivers (assign_current_relay_state b).
Proof. intros w w1 out H. discriminate H. Qed.

Lemma delivers_bind {A B : Type} (m : M A) (k : A -> M B) :
  delivers m -> (forall a, delivers (k a)) -> delivers (bind m k).
Proof.
  intros Hm Hk w w2 out. unfold bind.
  destruct (m w) as [[[a|e|] w1] out1] eqn:E.
  - destruct (k a w1) as [[r w3] out3] eqn:E2. intros H; inversion H; subst.
    exact (Hk a _ _ _ E2).
  - intros H; inversion H; subst. exact (Hm _ _ _ E).
  - discriminate.
Qed.

Lemma delivers_try_except {A : Type} (body : M A) (handler : exn -> option (M A)) :
  delivers body ->
  (forall e h, handler e = Some h -> delivers h) ->
  delivers (try_except body handler).
Proof.
  intros Hb Hh w w2 out. unfold try_except.
  destruct (body w) as [[[a|e|] w1] out1] eqn:E; try discriminate.
  destruct (handler e) as [h|] eqn:Eh.
  - destruct (h w1) as [[r w3] out3] eqn:E2. intros H; inversion H; subst.
    exact (Hh e h Eh _ _ _ E2).
  - intros H; inversion H; subst. exact (Hb _ _ _ E).
Qed.

Lemma delivers_if {A : Type} (b : bool) (m1 m2 : M A) :
  delivers m1 -> delivers m2 -> delivers (if b then m1 else m2).
Proof. destruct b; auto. Qed.

#[local] Hint Resolve delivers_ret delivers_io delivers_get delivers_assign
  delivers_bind delivers_try_except delivers_if : delivers.

Section Interrupt.

Variable round : float -> Z -> float.
Variable dht_sensor : nat -> reply.

Lemma delivers_dht_sensor_read : delivers (dht_sensor_read dht_sensor).
Proof.
  unfold dht_sensor_read. apply delivers_bind; [apply delivers_io|].
  intros _ w w1 out. destruct (dht_sensor (reads w)); discriminate.
Qed.

Lemma delivers_read_temperature : delivers (read_temperature round dht_sensor).
Proof.
  unfold read_temperature. apply delivers_try_except.
  - apply delivers_bind; [apply delivers_dht_sensor_read|].
    intros [[t|] h]; cbn [fst]; unfold print; auto with delivers.
  - intros e h. destruct (is_Exception e); [|discriminate].
    intros H; inversion H; subst. unfold print; auto with delivers.
Qed.

Lemma delivers_control (t : float) : delivers (control_relay_based_on_temperature t).
Proof.
  unfold control_relay_based_on_temperature, print, relay_toggle, blink_led, led_value.
  destruct (float_gt t TEMPERATURE_THRESHOLD);
    (apply delivers_bind; [apply delivers_get|]; intros [|]; cbn [negb];
     auto 10 with delivers).
Qed.

Lemma delivers_display_status (t : option float) (h : float) :
  delivers (display_status t h).
Proof.
  unfold display_status, print. destruct t; auto 20 with delivers.
Qed.

Lemma delivers_cycle (n : nat) : delivers (cycle round dht_sensor n).
Proof.
  unfold cycle, sleep, print.
  apply delivers_bind; [apply delivers_io|]. intros _.
  apply delivers_bind; [apply delivers_read_temperature|]. intros [t|].
  - apply delivers_bind; [|auto with delivers].
    apply delivers_bind; [apply delivers_dht_sensor_read|]. intros [t2 [h2|]].
    + cbn [snd round_value].
      apply delivers_bind; [apply delivers_ret|]. intros h.
      apply delivers_bind; [apply delivers_control|]. intros _.
      apply delivers_display_status.
    + cbn [snd round_value].
      apply delivers_bind; [apply delivers_raise; reflexivity|]. intros h.
      apply delivers_bind; [apply delivers_control|]. intros _.
      apply delivers_display_status.
  - auto with delivers.
Qed.

Lemma delivers_main_loop (fuel : nat) :
  forall n : nat, delivers (main_loop round dht_sensor fuel n).
Proof.
  induction fuel as [|fuel IH]; intros n.
  - intros w w1 out H. discriminate H.
  - cbn [main_loop]. apply delivers_bind; [apply delivers_cycle|]. intros _. apply IH.
Qed.

Lemma delivers_main (fuel : nat) : delivers (main round dht_sensor fuel).
Proof.
  unfold main, print.
  repeat (apply delivers_bind; [apply delivers_io|]; intros _).
  apply delivers_main_loop.
Qed.

Lemma delivers_startup : delivers startup.
Proof.
  unfold startup, print, relay_toggle.
  apply delivers_bind; [apply delivers_io|]. intros _.
  apply delivers_bind; [apply delivers_get|]. intros [|]; auto 10 with delivers.
Qed.

(** The interrupt handler of the script, run with no further interrupt
    pending. *)
Lemma on_keyboard_interrupt_quiet (f : bool) (r : nat) :
  on_keyboard_interrupt (World f r None)
  = (Val tt, World f r None,
     Print [Text "\n\nProgram stopped by user"]
       :: (if f then [RelayToggle; Print [Text "Relay turned OFF for safety"]] else [])
       ++ [Print [Text "Goodbye!"]]).
Proof. destruct f; reflexivity. Qed.

(** C3, amended.  Let Ctrl+C arrive anywhere in the startup block or the
    loop, so that they end with [KeyboardInterrupt] in world [w1] after
    output [out1].  The script then runs its handler and ends normally.  The
    handler toggles the relay exactly once when the flag is True at that
    moment and does not touch the relay when the flag is False; it never
    touches the LED and leaves the flag as it is. *)
Theorem keyboard_interrupt_shutdown :
  forall (fuel : nat) (w w1 : world) (out1 : list event),
    (startup ;; main round dht_sensor fuel) w = (Raise KeyboardInterrupt, w1, out1) ->
    let shutdown :=
      Print [Text "\n\nProgram stopped by user"]
        :: (if current_relay_state w1
            then [RelayToggle; Print [Text "Relay turned OFF for safety"]]
            else [])
        ++ [Print [Text "Goodbye!"]] in
    script round dht_sensor fuel w = (Val tt, w1, out1 ++ shutdown) /\
    actuation shutdown = (if current_relay_state w1 then [RelayToggle] else []) /\
    toggles shutdown = (if current_relay_state w1 then 1 else 0).
Proof.
  intros fuel w w1 out1 H shutdown.
  assert (Hp : pending w1 = None).
  { assert (Hd : delivers (startup ;; main round dht_sensor fuel)).
    { apply delivers_bind; [apply delivers_startup|].
      intros _. apply delivers_main. }
    exact (Hd _ _ _ H). }
  split; [|split].
  - unfold script, try_except. rewrite H.
    destruct w1 as [f1 r1 p1]. cbn [pending] in Hp. subst p1.
    rewrite on_keyboard_interrupt_quiet. reflexivity.
  - unfold shutdown. destruct (current_relay_state w1); reflexivity.
  - unfold shutdown. destruct (current_relay_state w1); reflexivity.
Qed.

End Interrupt.

(** C3, as stated, fails: Ctrl+C arrives during the sleep of the first cycle,
    the relay being off (28.0 degrees).  The script ends through its
    interrupt handler, and the handler sends no OFF command: the whole output
    holds no relay toggle. *)
Lemma interrupt_while_off_issues_no_command :
  fst (fst ((startup ;; main micropython_round (steady 28.0 50.0) 3)
              (module_init (Some 19))))
  = Raise KeyboardInterrupt /\
  script micropython_round (steady 28.0 50.0) 3 (module_init (Some 19))
  = (Val tt, World false 2 None,
     snd ((startup ;; main micropython_round (steady 28.0 50.0) 3)
            (module_init (Some 19)))
       ++ [Print [Text "\n\nProgram stopped by user"]; Print [Text "Goodbye!"]]) /\
  toggles (snd (script micropython_round (steady 28.0 50.0) 3 (module_init (Some 19))))
  <> 1.
Proof.
  split; [reflexivity|]. split; [reflexivity|]. vm_compute. discriminate.
Qed.

(** C3, amended, when Ctrl+C arrives during the sleep of the first cycle with
    the relay on (31.0 degrees): the handler toggles the relay once. *)
Lemma keyboard_interrupt_shutdown_witness :
  (startup ;; main micropython_round (steady 31.0 50.0) 3) (module_init (Some 23))
  = (Raise KeyboardInterrupt, World true 2 None,
     snd ((startup ;; main micropython_round (steady 31.0 50.0) 3)
            (module_init (Some 23)))) /\
  script micropython_round (steady 31.0 50.0) 3 (module_init (Some 23))
  = (Val tt, World true 2 None,
     snd ((startup ;; main micropython_round (steady 31.0 50.0) 3)
            (module_init (Some 23)))
       ++ [Print [Text "\n\nProgram stopped by user"];
           RelayToggle;
           Print [Text "Relay turned OFF for safety"];
           Print [Text "Goodbye!"]]).
Proof.
  split; [reflexivity|].
  apply (@keyboard_interrupt_shutdown micropython_round (steady 31.0 50.0) 3
           (module_init (Some 23)) (World true 2 None)
           (snd ((startup ;; main micropython_round (steady 31.0 50.0) 3)
                   (module_init (Some 23))))).
  reflexivity.
Defined.

(** ** The script ends once Ctrl+C is pending *)

Lemma costs_ret {A : Type} (a : A) : costs 0 (ret a).
Proof. intros w k Hk. exists k. split; [exact Hk | lia]. Qed.

Lemma costs_raise {A : Type} (n : nat) (e : exn) : costs n (@raise A e).
Proof. intros w _ k Hk. exists k. split; [exact Hk | lia]. Qed.

Lemma costs_get : costs 0 get_current_relay_state.
Proof. intros w k Hk. exists k. split; [exact Hk | lia]. Qed.

Lemma costs_assign (b : bool) : costs 0 (assign_current_relay_state b).
Proof. intros w k Hk. exists k. split; [exact Hk | lia]. Qed.

Lemma costs_io (e : event) : costs 1 (io e).
Proof.
  intros w. unfold io. destruct (pending w) as [[|k]|].
  - discriminate.
  - intros k0 Hk. inversion Hk; subst. exists k. split; [reflexivity | lia].
  - intros k0 Hk. discriminate Hk.
Qed.

Lemma costs_le {A : Type} (n p : nat) (m : M A) : costs n m -> p <= n -> costs p m.
Proof.
  intros Hm Hle w. specialize (Hm w).
  destruct (m w) as [[[a|e|] w1] out]; auto.
  intros k Hk. destruct (Hm k Hk) as (k' & H1 & H2). exists k'. split; [exact H1 | lia].
Qed.

Lemma costs_bind {A B : Type} (n p : nat) (m : M A) (k : A -> M B) :
  costs n m -> (forall a, costs p (k a)) -> costs (n + p) (bind m k).
Proof.
  intros Hm Hk w. unfold bind. specialize (Hm w).
  destruct (m w) as [[[a|e|] w1] out1]; auto.
  specialize (Hk a w1).
  destruct (k a w1) as [[[b|e|] w2] out2]; auto.
  - intros k0 H0. destruct (Hm k0 H0) as (k1 & H1 & L1).
    destruct (Hk k1 H1) as (k2 & H2 & L2). exists k2. split; [exact H2 | lia].
  - intros He k0 H0. destruct (Hm k0 H0) as (k1 & H1 & L1).
    destruct (Hk He k1 H1) as (k2 & H2 & L2). exists k2. split; [exact H2 | lia].
Qed.

(** A [try] whose [except] clauses catch [Exception]s only. *)
Lemma costs_try_except {A : Type} (n : nat) (body : M A) (handler : exn -> option (M A)) :
  costs n body ->
  (forall e h, handler e = Some h -> is_Exception e = true /\ costs 0 h) ->
  costs 0 (try_except body handler).
Proof.
  intros Hb Hh w. unfold try_except. specialize (Hb w).
  destruct (body w) as [[[a|e|] w1] out1]; auto.
  - intros k Hk. destruct (Hb k Hk) as (k' & H1 & H2). exists k'. split; [exact H1 | lia].
  - destruct (handler e) as [h|] eqn:Eh; [|exact Hb].
    destruct (Hh e h Eh) as [He Hc]. specialize (Hc w1).
    destruct (h w1) as [[[b|e2|] w2] out2]; auto.
    + intros k0 H0. destruct (Hb He k0 H0) as (k1 & H1 & L1).
      destruct (Hc k1 H1) as (k2 & H2 & L2). exists k2. split; [exact H2 | lia].
    + intros He2 k0 H0. destruct (Hb He k0 H0) as (k1 & H1 & L1).
      destruct (Hc He2 k1 H1) as (k2 & H2 & L2). exists k2. split; [exact H2 | lia].
Qed.

Lemma costs_seq0 {A B : Type} (m : M A) (k : A -> M B) :
  costs 0 m -> (forall a, costs 0 (k a)) -> costs 0 (bind m k).
Proof. intros Hm Hk. exact (@costs_bind _ _ 0 0 m k Hm Hk). Qed.

Lemma costs_io0 (e : event) : costs 0 (io e).
Proof. apply (@costs_le _ 1 0 (io e) (costs_io e)). lia. Qed.

Lemma costs_if {A : Type} (n : nat) (b : bool) (m1 m2 : M A) :
  costs n m1 -> costs n m2 -> costs n (if b then m1 else m2).
Proof. destruct b; auto. Qed.

Create HintDb costs.

#[local] Hint Resolve costs_ret costs_raise costs_get costs_assign costs_io0
  costs_seq0 costs_if : costs.

Section Termination.

Variable round : float -> Z -> float.
Variable dht_sensor : nat -> reply.

Lemma costs_dht_sensor_read : costs 0 (dht_sensor_read dht_sensor).
Proof.
  unfold dht_sensor_read. apply costs_seq0; [apply costs_io0|].
  intros _ w. destruct (dht_sensor (reads w)).
  - intros k Hk. exists k. split; [exact Hk | lia].
  - intros _ k Hk. exists k. split; [exact Hk | lia].
Qed.

Lemma costs_read_temperature : costs 0 (read_temperature round dht_sensor).
Proof.
  unfold read_temperature. apply costs_try_except with (n := 0).
  - apply costs_seq0; [apply costs_dht_sensor_read|].
    intros [[t|] h]; cbn [fst]; unfold print; auto with costs.
  - intros e h. destruct (is_Exception e); [|discriminate].
    intros H; inversion H; subst. split; [reflexivity|].
    unfold print; auto with costs.
Qed.

Lemma costs_control (t : float) : costs 0 (control_relay_based_on_temperature t).
Proof.
  unfold control_relay_based_on_temperature, print, relay_toggle, blink_led, led_value.
  destruct (float_gt t TEMPERATURE_THRESHOLD);
    (apply costs_seq0; [apply costs_get|]; intros [|]; cbn [negb];
     auto 10 with costs).
Qed.

Lemma costs_display_status (t : option float) (h : float) :
  costs 0 (display_status t h).
Proof.
  unfold display_status, print. destruct t; auto 20 with costs.
Qed.

(** A cycle that returns has made at least one I/O call. *)
Lemma costs_cycle (n : nat) : costs 1 (cycle round dht_sensor n).
Proof.
  unfold cycle, sleep, print.
  apply (@costs_bind _ _ 1 0); [apply costs_io|]. intros _.
  apply costs_seq0; [apply costs_read_temperature|]. intros [t|].
  - apply costs_seq0; [|auto with costs].
    apply costs_seq0; [apply costs_dht_sensor_read|]. intros [t2 [h2|]];
      cbn [snd round_value];
      (apply costs_seq0; [auto with costs|]; intros h;
       apply costs_seq0; [apply costs_control|]; intros _;
       apply costs_display_status).
  - auto with costs.
Qed.

Lemma costs_startup : costs 0 startup.
Proof.
  unfold startup, print, relay_toggle.
  apply costs_seq0; [apply costs_io0|]. intros _.
  apply costs_seq0; [apply costs_get|]. intros [|]; auto 10 with costs.
Qed.

Lemma costs_on_keyboard_interrupt : costs 0 on_keyboard_interrupt.
Proof.
  unfold on_keyboard_interrupt, print, relay_toggle.
  apply costs_seq0; [apply costs_io0|]. intros _.
  apply costs_seq0; [apply costs_get|]. intros [|]; auto 10 with costs.
Qed.

Lemma costs_on_exception (e : exn) : costs 0 (on_exception e).
Proof.
  unfold on_exception, print, relay_toggle.
  apply costs_seq0; [apply costs_io0|]. intros _.
  apply costs_seq0; [apply costs_get|]. intros [|]; auto 10 with costs.
Qed.

(** With Ctrl+C pending after [k] more I/O calls and more than [k]
    iterations of fuel, the loop is left before the fuel runs out. *)
Lemma main_loop_ends (fuel : nat) :
  forall (n : nat) (w : world) (k : nat),
    pending w = Some k -> k < fuel ->
    fst (fst (main_loop round dht_sensor fuel n w)) <> Running.
Proof.
  induction fuel as [|fuel IH]; intros n w k Hk Hlt; [lia|].
  cbn [main_loop]. unfold bind.
  pose proof (costs_cycle (S n) w) as Hc.
  destruct (cycle round dht_sensor (S n) w) as [[[[]|e|] w1] out1].
  - destruct (Hc k Hk) as (k1 & H1 & L1).
    assert (Hn : fst (fst (main_loop round dht_sensor fuel (S n) w1)) <> Running)
      by (apply (IH (S n) w1 k1 H1); lia).
    destruct (main_loop round dht_sensor fuel (S n) w1) as [[r2 w2] out2].
    exact Hn.
  - cbn. discriminate.
  - contradiction.
Qed.

(** Sequencing keeps the bound. *)
Lemma bind_ends {A B : Type} (bound : nat) (m : M A) (f : A -> M B) :
  costs 0 m ->
  (forall a w1 k1, pending w1 = Some k1 -> k1 < bound ->
                   fst (fst (f a w1)) <> Running) ->
  forall (w : world) (k : nat),
    pending w = Some k -> k < bound ->
    fst (fst (bind m f w)) <> Running.
Proof.
  intros Hm Hf w k Hk Hlt. unfold bind. specialize (Hm w).
  destruct (m w) as [[[a|e|] w1] out1].
  - destruct (Hm k Hk) as (k1 & H1 & L1).
    assert (Hn : fst (fst (f a w1)) <> Running) by (apply (Hf a w1 k1 H1); lia).
    destruct (f a w1) as [[r2 w2] out2]. exact Hn.
  - cbn. discriminate.
  - contradiction.
Qed.

Lemma main_ends (fuel : nat) (w : world) (k : nat) :
  pending w = Some k -> k < fuel ->
  fst (fst (main round dht_sensor fuel w)) <> Running.
Proof.
  unfold main, print.
  revert w k.
  do 5 (apply bind_ends; [apply costs_io0|]; intros _).
  intros w k. apply main_loop_ends.
Qed.

(** X1.  The script ends: if Ctrl+C becomes due after [k] more I/O calls, then
    within any run long enough for more than [k] loop iterations the script
    has ended, normally through a handler or with an exception raised inside
    a handler.  It is not still in its loop. *)
Theorem script_ends_after_ctrl_c :
  forall (fuel k : nat),
    k < fuel ->
    fst (fst (script round dht_sensor fuel (module_init (Some k)))) <> Running.
Proof.
  intros fuel k Hlt. unfold script, try_except.
  assert (Hb : fst (fst ((startup ;; main round dht_sensor fuel) (module_init (Some k))))
               <> Running).
  { apply (@bind_ends _ _ fuel startup (fun _ => main round dht_sensor fuel)
             costs_startup) with (k := k);
      [intros _ w1 k1; apply main_ends | reflexivity | exact Hlt]. }
  destruct ((startup ;; main round dht_sensor fuel) (module_init (Some k)))
    as [[[[]|e|] w1] out1].
  - cbn. discriminate.
  - destruct e.
    + pose proof (costs_on_keyboard_interrupt w1) as Hh.
      destruct (on_keyboard_interrupt w1) as [[[[]|e2|] w2] out2];
        cbn; try discriminate; contradiction.
    + pose proof (costs_on_exception TypeError w1) as Hh.
      destruct (on_exception TypeError w1) as [[[[]|e2|] w2] out2];
        cbn; try discriminate; contradiction.
    + pose proof (costs_on_exception (SensorException msg) w1) as Hh.
      destruct (on_exception (SensorException msg) w1) as [[[[]|e2|] w2] out2];
        cbn; try discriminate; contradiction.
  - exfalso. apply Hb. reflexivity.
Qed.

End Termination.

(** The script on a steady 31.0 degrees with Ctrl+C due after 30 I/O calls
    has ended within 31 iterations. *)
Lemma script_ends_after_ctrl_c_witness :
  30 < 31 /\
  fst (fst (script micropython_round (steady 31.0 50.0) 31 (module_init (Some 30))))
  <> Running.
Proof.
  split; [lia|].
  apply (@script_ends_after_ctrl_c micropython_round (steady 31.0 50.0) 31 30). lia.
Defined.

(** ** The relay is off when the script ends *)

Lemma tracks_ret {A : Type} (a : A) : tracks (ret a).
Proof. intros w. reflexivity. Qed.

Lemma tracks_raise {A : Type} (e : exn) : tracks (@raise A e).
Proof. intros w. reflexivity. Qed.

Lemma tracks_get : tracks get_current_relay_state.
Proof. intros w. reflexivity. Qed.

(** Any I/O call other than [relay.toggle()]. *)
Lemma tracks_io (e : event) : is_toggle e = false -> tracks (io e).
Proof.
  intros He w. unfold io.
  destruct (pending w) as [[|k]|]; cbn; rewrite ?He; reflexivity.
Qed.

Lemma tracks_bind {A B : Type} (m : M A) (k : A -> M B) :
  tracks m -> (forall a, tracks (k a)) -> tracks (bind m k).
Proof.
  intros Hm Hk w. unfold bind. specialize (Hm w).
  destruct (m w) as [[[a|e|] w1] out1]; cbn [fst snd] in *; auto.
  specialize (Hk a w1).
  destruct (k a w1) as [[r2 w2] out2]. cbn [fst snd] in *.
  rewrite relay_output_app, Hm. exact Hk.
Qed.

Lemma tracks_try_except {A : Type} (body : M A) (handler : exn -> option (M A)) :
  tracks body ->
  (forall e h, handler e = Some h -> tracks h) ->
  tracks (try_except body handler).
Proof.
  intros Hb Hh w. unfold try_except. specialize (Hb w).
  destruct (body w) as [[[a|e|] w1] out1]; cbn [fst snd] in *; auto.
  destruct (handler e) as [h|] eqn:Eh; cbn [fst snd]; auto.
  specialize (Hh e h Eh w1).
  destruct (h w1) as [[r2 w2] out2]. cbn [fst snd] in *.
  rewrite relay_output_app, Hb. exact Hh.
Qed.

Lemma tracks_if {A : Type} (b : bool) (m1 m2 : M A) :
  tracks m1 -> tracks m2 -> tracks (if b then m1 else m2).
Proof. destruct b; auto. Qed.

Lemma tracks_print (s : fstring) : tracks (print s).
Proof. apply tracks_io. reflexivity. Qed.

Lemma tracks_sleep (x : float) : tracks (sleep x).
Proof. apply tracks_io. reflexivity. Qed.

(** The controller toggles and assigns between two interrupt points, so the
    flag and the relay move together wherever Ctrl+C cuts the call. *)
Lemma tracks_control (t : float) : tracks (control_relay_based_on_temperature t).
Proof.
  intros [f r p]. unfold control_relay_based_on_temperature.
  destruct (float_gt t TEMPERATURE_THRESHOLD), f;
    destruct p as [[|[|[|[|[|k]]]]]|]; reflexivity.
Qed.

Lemma tracks_startup : tracks startup.
Proof.
  intros [f r p]. destruct f; destruct p as [[|[|[|k]]]|]; reflexivity.
Qed.

Lemma tracks_display_status (t : option float) (h : float) :
  tracks (display_status t h).
Proof.
  unfold display_status.
  repeat (apply tracks_bind; [apply tracks_print|]; intros _).
  apply tracks_bind; [|intros _; apply tracks_print].
  destruct t; [|apply tracks_print].
  repeat (apply tracks_bind; [apply tracks_print|]; intros _).
  apply tracks_bind; [apply tracks_get|]. intros state.
  apply tracks_bind; [apply tracks_print|]. intros _.
  apply tracks_if; apply tracks_print.
Qed.

Create HintDb tracks.

#[local] Hint Resolve tracks_ret tracks_raise tracks_get tracks_bind tracks_if
  tracks_print tracks_sleep tracks_control tracks_startup tracks_display_status
  tracks_try_except : tracks.

Lemma loops_bind {A B : Type} (m : M A) (k : A -> M B) :
  (forall a, loops (k a)) -> loops (bind m k).
Proof.
  intros Hk w b. unfold bind.
  destruct (m w) as [[[a|e|] w1] out1]; cbn; try discriminate.
  specialize (Hk a w1 b). destruct (k a w1) as [[r2 w2] out2]. exact Hk.
Qed.

Section Shutdown.

Variable round : float -> Z -> float.
Variable dht_sensor : nat -> reply.

Lemma tracks_dht_sensor_read : tracks (dht_sensor_read dht_sensor).
Proof.
  unfold dht_sensor_read.
  apply tracks_bind; [apply tracks_io; reflexivity|].
  intros _ w. destruct (dht_sensor (reads w)); reflexivity.
Qed.

Lemma tracks_read_temperature : tracks (read_temperature round dht_sensor).
Proof.
  unfold read_temperature. apply tracks_try_except.
  - apply tracks_bind; [apply tracks_dht_sensor_read|].
    intros [[t|] h]; cbn [fst]; auto with tracks.
  - intros e h. destruct (is_Exception e); [|discriminate].
    intros H; inversion H; subst. auto with tracks.
Qed.

Lemma tracks_cycle (n : nat) : tracks (cycle round dht_sensor n).
Proof.
  unfold cycle.
  apply tracks_bind; [apply tracks_print|]. intros _.
  apply tracks_bind; [apply tracks_read_temperature|]. intros [t|].
  - apply tracks_bind; [|auto with tracks].
    apply tracks_bind; [apply tracks_dht_sensor_read|]. intros [t2 [h2|]];
      cbn [snd round_value]; auto 10 with tracks.
  - auto with tracks.
Qed.

Lemma tracks_main_loop (fuel : nat) :
  forall n : nat, tracks (main_loop round dht_sensor fuel n).
Proof.
  induction fuel as [|fuel IH]; intros n.
  - intros w. reflexivity.
  - cbn [main_loop]. apply tracks_bind; [apply tracks_cycle|]. intros _. apply IH.
Qed.

Lemma tracks_main (fuel : nat) : tracks (main round dht_sensor fuel).
Proof.
  unfold main.
  repeat (apply tracks_bind; [apply tracks_print|]; intros _).
  apply tracks_main_loop.
Qed.

Lemma loops_main_loop (fuel : nat) :
  forall n : nat, loops (main_loop round dht_sensor fuel n).
Proof.
  induction fuel as [|fuel IH]; intros n.
  - intros w a. cbn. discriminate.
  - cbn [main_loop]. apply loops_bind. intros _. apply IH.
Qed.

Lemma loops_main (fuel : nat) : loops (main round dht_sensor fuel).
Proof.
  unfold main. do 5 (apply loops_bind; intros _). apply loops_main_loop.
Qed.

(** The [except Exception] handler, when it completes, leaves the relay
    off if the relay was where the flag said. *)
Lemma on_exception_switches_off (e : exn) (w w2 : world) (out2 : list event) :
  on_exception e w = (Val tt, w2, out2) ->
  relay_output (current_relay_state w) out2 = false.
Proof.
  destruct w as [f r p]. destruct f; destruct p as [[|[|k]]|]; cbn;
    intros H; inversion H; reflexivity.
Qed.


End Shutdown.


(** ** More on temperature_control.py *)

Lemma led_writes_app (a b : list event) :
  led_writes (a ++ b) = led_writes a ++ led_writes b.
Proof.
  induction a as [|e a IH]; [reflexivity|].
  destruct e; cbn; rewrite IH; reflexivity.
Qed.

Lemma sleeps_app (a b : list event) : sleeps (a ++ b) = sleeps a + sleeps b.
Proof. unfold sleeps. rewrite filter_app. apply length_app. Qed.

Lemma led_output_app (initial : Z) (a b : list event) :
  led_output initial (a ++ b) = led_output (led_output initial a) b.
Proof.
  unfold led_output. rewrite led_writes_app.
  induction (led_writes b) as [|v l IH] using rev_ind.
  - rewrite app_nil_r. reflexivity.
  - rewrite app_assoc, !last_last. reflexivity.
Qed.

Lemma control_led_output (t : float) (f : bool) (r : nat) :
  led_output (led_level f)
    (snd (control_relay_based_on_temperature t (World f r None)))
  = led_level (exceeds t) /\
  length (led_writes (snd (control_relay_based_on_temperature t (World f r None))))
  = toggles (snd (control_relay_based_on_temperature t (World f r None))).
Proof.
  unfold control_relay_based_on_temperature, exceeds.
  destruct (float_gt t TEMPERATURE_THRESHOLD), f; split; reflexivity.
Qed.

Section MoreControl.

Variable round : float -> Z -> float.
Variable dht_sensor : nat -> reply.

(** X3.  [read_temperature] contains every sensor failure.  In any world,
    with or without a pending interrupt, it raises nothing but
    [KeyboardInterrupt], it leaves the flag alone, sends nothing to the relay
    or the LED and reads the sensor at most once.  With no interrupt pending
    it returns, and it returns [None] exactly when the read raised or gave no
    temperature. *)
Theorem read_temperature_contains_failures :
  forall w : world,
    let '(res, w1, out) := read_temperature round dht_sensor w in
    (forall e, res = Raise e -> e = KeyboardInterrupt) /\
    res <> Running /\
    current_relay_state w1 = current_relay_state w /\
    actuation out = [] /\
    sensor_reads out <= 1 /\
    (pending w = None ->
     (exists v, res = Val v) /\
     (res = Val None <-> acquisition_fails (dht_sensor (reads w)) = true)).
Proof.
  intros [f r p].
  unfold read_temperature, try_except, dht_sensor_read, bind.
  destruct p as [[|[|[|k]]]|]; cbn;
    destruct (dht_sensor r) as [[t|] h|msg]; cbn;
    repeat split; intros; subst; try discriminate; try (cbn; lia);
      try reflexivity; try congruence; eauto.
Qed.

(** X4.  What ends a cycle, with no interrupt pending.  The cycle returns
    exactly when the acquisition fails or the second read, made for the
    humidity, returns a humidity.  Otherwise it raises: [TypeError] when the
    second read returns no humidity, the driver's exception when the second
    read raises.  In that case the controller has not been called, although a
    temperature was read: the flag is unchanged and nothing was sent to the
    relay or the LED.  A cycle never leaves the loop running. *)
Theorem cycle_outcome :
  forall (n : nat) (f : bool) (r : nat),
    let '(res, w1, out) := cycle round dht_sensor n (World f r None) in
    (res = Val tt <->
     acquisition_fails (dht_sensor r) = true \/
     exists t2 h2, dht_sensor (S r) = Reply t2 (Some h2)) /\
    (forall e, res = Raise e ->
       acquisition_fails (dht_sensor r) = false /\
       ((e = TypeError /\ exists t2, dht_sensor (S r) = Reply t2 None) \/
        (exists msg, e = SensorException msg /\ dht_sensor (S r) = Fault msg)) /\
       current_relay_state w1 = f /\
       actuation out = []) /\
    res <> Running.
Proof.
  intros n f r.
  destruct (dht_sensor r) as [[raw|] h1|msg] eqn:E1.
  - destruct (dht_sensor (S r)) as [t2 [h2|]|msg] eqn:E2.
    + rewrite (@cycle_success round dht_sensor n f r raw h1 t2 h2 E1 E2). cbn [acquisition_fails].
      repeat split; intros; try discriminate; eauto.
    + rewrite (@cycle_humidity_missing round dht_sensor n f r raw h1 t2 E1 E2). cbn [acquisition_fails].
      repeat split; intros; try discriminate.
      * destruct H as [H|(t & h & H)]; discriminate.
      * inversion H; subst. left. eauto.
    + rewrite (@cycle_second_read_raises round dht_sensor n f r raw h1 msg E1 E2). cbn [acquisition_fails].
      repeat split; intros; try discriminate.
      * destruct H as [H|(t & h & H)]; discriminate.
      * inversion H; subst. right. eauto.
  - rewrite cycle_acquisition_fails by (rewrite E1; reflexivity).
    cbn [acquisition_fails]. repeat split; intros; try discriminate; auto.
  - rewrite cycle_acquisition_fails by (rewrite E1; reflexivity).
    cbn [acquisition_fails]. repeat split; intros; try discriminate; auto.
Qed.

End MoreControl.

(** X5.  The signal LED shows the relay flag.  Run the controller on any
    sequence of readings, the LED showing the flag at the start: after the
    run the LED again shows the flag, and the LED was written exactly as
    often as the relay was toggled. *)
Theorem led_shows_flag :
  forall (temperatures : list float) (f0 : bool) (r : nat),
    let run := feed temperatures (World f0 r None) in
    let out := concat (fst run) in
    led_output (led_level f0) out = led_level (current_relay_state (snd run)) /\
    length (led_writes out) = toggles out.
Proof.
  intros temperatures. induction temperatures as [|t rest IH]; intros f r; cbv zeta.
  - split; reflexivity.
  - cbn [feed]. rewrite control_returns.
    destruct (IH (exceeds t) r) as [IH1 IH2].
    destruct (control_led_output t f r) as [C1 C2].
    destruct (feed rest (World (exceeds t) r None)) as [outs w2].
    cbn [fst snd concat] in *.
    rewrite led_output_app, C1, IH1, led_writes_app, length_app, toggles_app, C2, IH2.
    split; reflexivity.
Qed.

(** [display_status] with no temperature: the frame and one line. *)
Lemma display_status_none (h : float) (f : bool) (r : nat) :
  display_status None h (World f r None)
  = (Val tt, World f r None,
     [Print [Text "\n"; Rule 40];
      Print [Text "TEMPERATURE CONTROL SYSTEM"];
      Print [Rule 40];
      Print [Text "No sensor data available"];
      Print [Rule 40]]).
Proof. reflexivity. Qed.

(** X7.  [display_status] only prints.  For every temperature (present or
    [None]), humidity and world, with or without a pending interrupt, it
    leaves the flag and the read counter alone, sends nothing to the relay or
    the LED, reads no sensor, and raises nothing but [KeyboardInterrupt].
    Called without a temperature and with no interrupt pending, it prints
    the frame around the single line "No sensor data available". *)
Theorem display_status_only_prints :
  forall (temperature : option float) (humidity : float) (w : world),
    let '(res, w1, out) := display_status temperature humidity w in
    current_relay_state w1 = current_relay_state w /\
    reads w1 = reads w /\
    actuation out = [] /\
    sensor_reads out = 0 /\
    (forall e, res = Raise e -> e = KeyboardInterrupt) /\
    (temperature = None -> pending w = None ->
     res = Val tt /\
     out = [Print [Text "\n"; Rule 40];
            Print [Text "TEMPERATURE CONTROL SYSTEM"];
            Print [Rule 40];
            Print [Text "No sensor data available"];
            Print [Rule 40]]).
Proof.
  intros [t|] h [f r p]; unfold display_status.
  - destruct (float_gt t TEMPERATURE_THRESHOLD), f;
      destruct p as [[|[|[|[|[|[|[|[|[|k]]]]]]]]]|]; cbn;
      repeat split; intros; try discriminate; congruence.
  - destruct p as [[|[|[|[|[|k]]]]]|]; cbn;
      repeat split; intros; try discriminate; congruence.
Qed.

(** [display_status] called without a temperature from the initial world. *)
Lemma display_status_only_prints_witness :
  let '(res, w1, out) := display_status None 50.0%float (module_init None) in
  res = Val tt /\
  out = [Print [Text "\n"; Rule 40];
         Print [Text "TEMPERATURE CONTROL SYSTEM"];
         Print [Rule 40];
         Print [Text "No sensor data available"];
         Print [Rule 40]].
Proof.
  exact (proj2 (proj2 (proj2 (proj2 (proj2
           (display_status_only_prints None 50.0%float (module_init None))))))
           eq_refl eq_refl).
Defined.

(** An I/O call followed by [k], with no interrupt pending. *)
Lemma bind_io_quiet {B : Type} (e : event) (k : unit -> M B) (f : bool) (r : nat) :
  bind (io e) k (World f r None)
  = (fst (fst (k tt (World f r None))),
     snd (fst (k tt (World f r None))),
     e :: snd (k tt (World f r None))).
Proof.
  unfold bind, io. cbn [pending].
  destruct (k tt (World f r None)) as [[res w1] out]. reflexivity.
Qed.

Section Forever.

Variable round : float -> Z -> float.
Variable dht_sensor : nat -> reply.

(** Every answer of the sensor carries a humidity. *)
Hypothesis humidity_always :
  forall n : nat, exists t h, dht_sensor n = Reply t (Some h).

Lemma cycle_returns (n : nat) (f : bool) (r : nat) :
  exists f1 r1 out,
    cycle round dht_sensor n (World f r None) = (Val tt, World f1 r1 None, out) /\
    sleeps out = 1.
Proof.
  destruct (humidity_always r) as (t & h & E1).
  destruct t as [raw|].
  - destruct (humidity_always (S r)) as (t2 & h2 & E2).
    rewrite (@cycle_success round dht_sensor n f r raw (Some h) t2 h2 E1 E2).
    do 3 eexists. split; [reflexivity|].
    rewrite !sleeps_app.
    assert (Hc : sleeps (snd (control_relay_based_on_temperature (round raw 1)
                                (World f (S (S r)) None))) = 0).
    { unfold control_relay_based_on_temperature.
      destruct (float_gt (round raw 1) TEMPERATURE_THRESHOLD), f; reflexivity. }
    rewrite Hc. reflexivity.
  - rewrite cycle_acquisition_fails by (rewrite E1; reflexivity).
    do 3 eexists. split; reflexivity.
Qed.

Lemma main_loop_runs (fuel : nat) :
  forall (n : nat) (f : bool) (r : nat),
    exists f1 r1 out,
      main_loop round dht_sensor fuel n (World f r None)
      = (Running, World f1 r1 None, out) /\
      sleeps out = fuel.
Proof.
  induction fuel as [|fuel IH]; intros n f r.
  - do 3 eexists. split; reflexivity.
  - cbn [main_loop]. unfold bind.
    destruct (cycle_returns (S n) f r) as (f1 & r1 & out1 & E1 & S1).
    rewrite E1.
    destruct (IH (S n) f1 r1) as (f2 & r2 & out2 & E2 & S2).
    rewrite E2. do 3 eexists. split; [reflexivity|].
    rewrite sleeps_app, S1, S2. reflexivity.
Qed.

(** X6.  Without Ctrl+C the script does not end as long as every sensor
    answer carries a humidity, whether or not it carries a temperature: for
    every amount of fuel the script is still in its loop, no handler has run,
    and it has slept once per iteration. *)
Theorem script_runs_forever :
  forall fuel : nat,
    exists (w1 : world) (out : list event),
      script round dht_sensor fuel (module_init None) = (Running, w1, out) /\
      sleeps out = fuel.
Proof.
  intros fuel. unfold script, try_except. unfold bind at 1.
  assert (Hs : startup (module_init None)
               = (Val tt, World false 0 None,
                  [Print [Text "Initializing system..."];
                   Print [Text "System initialized - Relay is OFF"]]))
    by reflexivity.
  rewrite Hs. clear Hs.
  destruct (main_loop_runs fuel 0 false 0) as (f1 & r1 & out1 & E & S).
  unfold main, print. rewrite !bind_io_quiet, E. cbn [fst snd].
  do 2 eexists. split; [reflexivity|].
  rewrite sleeps_app. cbn. exact S.
Qed.

End Forever.

(** The script on a steady 28.0 degrees and 50 % humidity is still running
    after five iterations, five sleeps done. *)
Lemma script_runs_forever_witness :
  (forall n : nat, exists t h, steady 28.0 50.0 n = Reply t (Some h)) /\
  exists (w1 : world) (out : list event),
    script micropython_round (steady 28.0 50.0) 5 (module_init None)
    = (Running, w1, out) /\
    sleeps out = 5.
Proof.
  assert (H : forall n : nat, exists t h, steady 28.0 50.0 n = Reply t (Some h))
    by (intros n; do 2 eexists; reflexivity).
  split; [exact H|].
  exact (@script_runs_forever micropython_round (steady 28.0 50.0) H 5).
Defined.

(** ** dht22_sensor_read.py *)

Section Monitor.

Variable round : float -> Z -> float.
Variable dht_sensor : nat -> reply.

(** One monitor cycle with no interrupt pending, by what the sensor answers. *)
Lemma monitor_cycle_quiet (n : nat) (f : bool) (r : nat) :
  Dht22SensorRead.cycle round dht_sensor n (World f r None)
  = (Val tt, World f (S r) None,
     Print [Text "Reading #"; Int n; Text ":"] :: SensorRead ::
     match dht_sensor r with
     | Reply (Some t) (Some h) =>
         [Print [Text " Temperature: ";
                 Num (round t Dht22SensorRead.DECIMAL_PLACES); Text " °C"];
          Print [Text " Humidity: ";
                 Num (round h Dht22SensorRead.DECIMAL_PLACES); Text " %"];
          Print [Text (str_mul "─" 30)]]
         ++ (if float_gt (round t Dht22SensorRead.DECIMAL_PLACES) 30%float
             then [Print [Text "Hot environment detected!"]]
             else if float_gt (round h Dht22SensorRead.DECIMAL_PLACES) 80%float
                  then [Print [Text "High humidity detected!"]]
                  else [])
         ++ [Sleep Dht22SensorRead.READ_INTERVAL]
     | Reply _ _ =>
         [Print [Text "Error: Failed to read from DHT22 sensor"];
          Sleep Dht22SensorRead.READ_INTERVAL]
     | Fault msg =>
         [Print [Text "Sensor Error: "; Err (SensorException msg)];
          Sleep Dht22SensorRead.READ_INTERVAL]
     end).
Proof.
  unfold Dht22SensorRead.cycle, Dht22SensorRead.read_sensor_data,
    try_except, dht_sensor_read, bind, print, sleep, io.
  cbn [pending current_relay_state reads].
  destruct (dht_sensor r) as [[t|] [h|]|msg]; cbn [fst snd ret app pending];
    try reflexivity.
  destruct (float_gt (round t Dht22SensorRead.DECIMAL_PLACES) 30%float);
    [reflexivity|].
  destruct (float_gt (round h Dht22SensorRead.DECIMAL_PLACES) 80%float);
    reflexivity.
Qed.

(** X8.  A reading of the monitor is never half filled.  In any world
    [read_sensor_data] returns both values or [(None, None)], or is cut by
    [KeyboardInterrupt]; no other exception leaves it, and it reads the
    sensor at most once.  With no interrupt pending it returns both values
    rounded to [DECIMAL_PLACES] when the sensor gave both, and [(None, None)]
    when either is missing or the read raised. *)
Theorem monitor_reading_is_paired :
  forall w : world,
    let '(res, w1, out) := Dht22SensorRead.read_sensor_data round dht_sensor w in
    (res = Raise KeyboardInterrupt \/
     res = Val (None, None) \/
     exists t h, res = Val (Some t, Some h)) /\
    sensor_reads out <= 1 /\
    (pending w = None ->
     res = Val match dht_sensor (reads w) with
               | Reply (Some t) (Some h) =>
                   (Some (round t Dht22SensorRead.DECIMAL_PLACES),
                    Some (round h Dht22SensorRead.DECIMAL_PLACES))
               | _ => (None, None)
               end).
Proof.
  intros [f r p].
  unfold Dht22SensorRead.read_sensor_data, try_except, dht_sensor_read, bind,
    print, io.
  destruct p as [[|[|[|[|[|k]]]]]|]; cbn;
    destruct (dht_sensor r) as [[t|] [h|]|msg]; cbn;
    repeat split; intros; try discriminate; try lia; eauto.
Qed.

Lemma monitor_main_loop_runs (fuel : nat) :
  forall (n : nat) (f : bool) (r : nat),
    exists out,
      Dht22SensorRead.main_loop round dht_sensor fuel n (World f r None)
      = (Running, World f (r + fuel) None, out) /\
      sensor_reads out = fuel /\
      sleeps out = fuel.
Proof.
  induction fuel as [|fuel IH]; intros n f r.
  - exists []. rewrite Nat.add_0_r. repeat split; reflexivity.
  - cbn [Dht22SensorRead.main_loop]. unfold bind.
    rewrite monitor_cycle_quiet.
    destruct (IH (S n) f (S r)) as (out2 & E2 & R2 & S2).
    rewrite E2. eexists. split; [|split].
    + replace (r + S fuel) with (S r + fuel) by lia. reflexivity.
    + rewrite sensor_reads_app, R2.
      destruct (dht_sensor r) as [[t|] [h|]|msg]; try reflexivity.
      destruct (float_gt (round t Dht22SensorRead.DECIMAL_PLACES) 30%float);
        [reflexivity|].
      destruct (float_gt (round h Dht22SensorRead.DECIMAL_PLACES) 80%float);
        reflexivity.
    + rewrite sleeps_app, S2.
      destruct (dht_sensor r) as [[t|] [h|]|msg]; try reflexivity.
      destruct (float_gt (round t Dht22SensorRead.DECIMAL_PLACES) 30%float);
        [reflexivity|].
      destruct (float_gt (round h Dht22SensorRead.DECIMAL_PLACES) 80%float);
        reflexivity.
Qed.

(** X9.  No sensor failure ends the monitor.  Whatever the sensor answers,
    with no Ctrl+C the monitor script is still in its loop after any number
    of iterations; it has read the sensor exactly once and slept exactly once
    per iteration. *)
Theorem monitor_survives_any_sensor :
  forall (fuel : nat) (f : bool) (r : nat),
    exists out : list event,
      Dht22SensorRead.script round dht_sensor fuel (World f r None)
      = (Running, World f (r + fuel) None, out) /\
      sensor_reads out = fuel /\
      sleeps out = fuel.
Proof.
  intros fuel f r.
  unfold Dht22SensorRead.script, try_except, Dht22SensorRead.main, print.
  destruct (monitor_main_loop_runs fuel 0 f r) as (out & E & R & S).
  rewrite !bind_io_quiet, E. cbn [fst snd].
  eexists. split; [reflexivity|]. split.
  - cbn. exact R.
  - cbn. exact S.
Qed.

(** X10.  The alerts of a monitor cycle, with no interrupt pending.  "Hot
    environment detected!" is printed exactly when the sensor gave both
    values and the rounded temperature exceeds 30; "High humidity detected!"
    exactly when it gave both values, the rounded temperature does not
    exceed 30 and the rounded humidity exceeds 80.  So a hot reading hides
    the humidity alert, and a cycle prints at most one of the two. *)
Theorem monitor_alerts :
  forall (n : nat) (f : bool) (r : nat),
    let out := snd (Dht22SensorRead.cycle round dht_sensor n (World f r None)) in
    (In (Print [Text "Hot environment detected!"]) out <->
     exists t h,
       dht_sensor r = Reply (Some t) (Some h) /\
       float_gt (round t Dht22SensorRead.DECIMAL_PLACES) 30%float = true) /\
    (In (Print [Text "High humidity detected!"]) out <->
     exists t h,
       dht_sensor r = Reply (Some t) (Some h) /\
       float_gt (round t Dht22SensorRead.DECIMAL_PLACES) 30%float = false /\
       float_gt (round h Dht22SensorRead.DECIMAL_PLACES) 80%float = true).
Proof.
  intros n f r out. unfold out. rewrite monitor_cycle_quiet. cbn [snd].
  destruct (dht_sensor r) as [[t|] [h|]|msg].
  - destruct (float_gt (round t Dht22SensorRead.DECIMAL_PLACES) 30%float) eqn:Eh;
      [|destruct (float_gt (round h Dht22SensorRead.DECIMAL_PLACES) 80%float) eqn:Em];
      cbn [In app]; split; split;
      try (intros (t0 & h0 & E0 & H0); inversion E0; subst;
           first [ tauto | congruence | destruct H0; congruence ]);
      try (intros H; repeat (destruct H as [H|H]; try discriminate H);
           try contradiction);
      try (exists t, h; repeat split; assumption).
  - cbn [In]; split; split;
      try (intros (t0 & h0 & E0 & H0); discriminate E0);
      intros H; repeat (destruct H as [H|H]; try discriminate H); contradiction.
  - cbn [In]; split; split;
      try (intros (t0 & h0 & E0 & H0); discriminate E0);
      intros H; repeat (destruct H as [H|H]; try discriminate H); contradiction.
  - cbn [In]; split; split;
      try (intros (t0 & h0 & E0 & H0); discriminate E0);
      intros H; repeat (destruct H as [H|H]; try discriminate H); contradiction.
  - cbn [In]; split; split;
      try (intros (t0 & h0 & E0 & H0); discriminate E0);
      intros H; repeat (destruct H as [H|H]; try discriminate H); contradiction.
Qed.

End Monitor.

(** ** led_blink.py *)

(** A sequence that returns: both parts returned, and the output is theirs
    in order. *)
Lemma bind_val_inv {A B : Type} (m : M A) (k : A -> M B)
      (w w2 : world) (b : B) (out : list event) :
  bind m k w = (Val b, w2, out) ->
  exists a w1 out1 out2,
    m w = (Val a, w1, out1) /\ k a w1 = (Val b, w2, out2) /\ out = out1 ++ out2.
Proof.
  unfold bind. destruct (m w) as [[[a|e|] w1] out1]; try discriminate.
  destruct (k a w1) as [[r2 w3] out2] eqn:E. intros H. inversion H; subst.
  exists a, w1, out1, out2. auto.
Qed.

Lemma io_val_inv (e : event) (w w1 : world) (out : list event) :
  io e w = (Val tt, w1, out) -> out = [e].
Proof.
  unfold io. destruct (pending w) as [[|k]|]; intros H; inversion H; reflexivity.
Qed.

(** One blink that completes: LED on, wait, LED off, wait. *)
Lemma blink_led_completes (w w1 : world) (out : list event) :
  LedBlink.blink_led w = (Val tt, w1, out) ->
  out = [LedValue 1; Sleep LedBlink.ON_DURATION;
         LedValue 0; Sleep LedBlink.OFF_DURATION].
Proof.
  unfold LedBlink.blink_led, led_value, sleep. intros H.
  apply bind_val_inv in H. destruct H as ([] & wa & o1 & o1' & H1 & H & ->).
  apply bind_val_inv in H. destruct H as ([] & wb & o2 & o2' & H2 & H & ->).
  apply bind_val_inv in H. destruct H as ([] & wc & o3 & o3' & H3 & H4 & ->).
  apply io_val_inv in H1, H2, H3, H4. subst. reflexivity.
Qed.

(** A loop of blinks that completes has blinked once per item. *)
Lemma blink_loop_completes (items : list nat) :
  forall (w w1 : world) (out : list event),
    for_each items
      (fun blink_number =>
         print [Text "Blink #"; Int (blink_number + 1)] ;; LedBlink.blink_led)
      w = (Val tt, w1, out) ->
    led_writes out = concat (repeat [1; 0]%Z (length items)) /\
    sleeps out = 2 * length items.
Proof.
  induction items as [|x items IH]; intros w w1 out H.
  - inversion H; subst. split; reflexivity.
  - cbn [for_each] in H.
    apply bind_val_inv in H. destruct H as ([] & wa & o1 & o2 & H1 & H2 & ->).
    apply bind_val_inv in H1. destruct H1 as ([] & wb & p1 & p2 & Hp & Hb & ->).
    apply io_val_inv in Hp. apply blink_led_completes in Hb. subst.
    destruct (IH _ _ _ H2) as [L S].
    rewrite led_writes_app, sleeps_app, L, S. cbn [length repeat concat].
    split; [reflexivity | cbn; lia].
Qed.

(** X11.  The blink demo.  With no interrupt pending [main] returns.
    Whenever [main] returns, it has written the LED on and off alternately,
    [BLINK_COUNT] times each, has slept twice per blink, and the LED is off
    at the end whatever it was before. *)
Theorem blink_main_leaves_led_off :
  forall w : world,
    (pending w = None -> fst (fst (LedBlink.main w)) = Val tt) /\
    (forall (w1 : world) (out : list event),
        LedBlink.main w = (Val tt, w1, out) ->
        led_writes out = concat (repeat [1; 0]%Z LedBlink.BLINK_COUNT) /\
        sleeps out = 2 * LedBlink.BLINK_COUNT /\
        forall initial : Z, led_output initial out = 0%Z).
Proof.
  intros w. split.
  - destruct w as [f r p]. cbn [pending]. intros ->. reflexivity.
  - intros w1 out H. unfold LedBlink.main, print in H.
    apply bind_val_inv in H. destruct H as ([] & wa & o1 & o1' & H1 & H & ->).
    apply bind_val_inv in H. destruct H as ([] & wb & o2 & o2' & H2 & H & ->).
    apply bind_val_inv in H. destruct H as ([] & wc & o3 & o3' & H3 & H4 & ->).
    apply io_val_inv in H1, H2, H4. subst.
    apply blink_loop_completes in H3. destruct H3 as [L S].
    unfold LedBlink.range in L, S. rewrite length_seq in L, S.
    assert (Hw : led_writes
                   ([Print [Text "Starting LED blink program..."]] ++
                    [Print [Text "LED will blink "; Int LedBlink.BLINK_COUNT;
                            Text " times"]] ++
                    o3 ++ [Print [Text "Program completed!"]])
                 = concat (repeat [1; 0]%Z LedBlink.BLINK_COUNT)).
    { cbn [app led_writes]. rewrite led_writes_app, L. apply app_nil_r. }
    split; [exact Hw|]. split.
    + cbn [app]. change (sleeps (?a :: ?b :: ?l)) with (sleeps l).
      rewrite sleeps_app, S. cbn. lia.
    + intros initial. unfold led_output. rewrite Hw. reflexivity.
Qed.

(** ** Stopping the monitor *)

Lemma interrupt_only_ret {A : Type} (a : A) : interrupt_only (ret a).
Proof. intros w w1 e out H. discriminate H. Qed.

Lemma interrupt_only_io (ev : event) : interrupt_only (io ev).
Proof.
  intros w w1 e out. unfold io.
  destruct (pending w) as [[|k]|]; intros H; inversion H; reflexivity.
Qed.

Lemma interrupt_only_bind {A B : Type} (m : M A) (k : A -> M B) :
  interrupt_only m -> (forall a, interrupt_only (k a)) -> interrupt_only (bind m k).
Proof.
  intros Hm Hk w w2 e out. unfold bind.
  destruct (m w) as [[[a|e1|] w1] out1] eqn:E.
  - destruct (k a w1) as [[r w3] out3] eqn:E2. intros H; inversion H; subst.
    exact (Hk a _ _ _ _ E2).
  - intros H; inversion H; subst. exact (Hm _ _ _ _ E).
  - discriminate.
Qed.

(** A [try] that catches every [Exception], with handlers that raise none. *)
Lemma interrupt_only_try_except {A : Type} (body : M A)
      (handler : exn -> option (M A)) :
  (forall e, handler e = None -> e = KeyboardInterrupt) ->
  (forall e h, handler e = Some h -> interrupt_only h) ->
  interrupt_only (try_except body handler).
Proof.
  intros Hn Hh w w2 e out. unfold try_except.
  destruct (body w) as [[[a|e1|] w1] out1] eqn:E; try discriminate.
  destruct (handler e1) as [h|] eqn:Eh.
  - destruct (h w1) as [[r w3] out3] eqn:E2. intros H; inversion H; subst.
    exact (Hh e1 h Eh _ _ _ _ E2).
  - intros H; inversion H; subst. exact (Hn _ Eh).
Qed.

Lemma interrupt_only_if {A : Type} (b : bool) (m1 m2 : M A) :
  interrupt_only m1 -> interrupt_only m2 -> interrupt_only (if b then m1 else m2).
Proof. destruct b; auto. Qed.

Create HintDb interrupt_only.

#[local] Hint Resolve interrupt_only_ret interrupt_only_io interrupt_only_bind
  interrupt_only_if : interrupt_only.

Section MonitorStop.

Variable round : float -> Z -> float.
Variable dht_sensor : nat -> reply.

Lemma interrupt_only_read_sensor_data :
  interrupt_only (Dht22SensorRead.read_sensor_data round dht_sensor).
Proof.
  unfold Dht22SensorRead.read_sensor_data. apply interrupt_only_try_except.
  - intros e. destruct e; cbn; intros H; [reflexivity | discriminate H | discriminate H].
  - intros e h. destruct (is_Exception e); [|discriminate].
    intros H; inversion H; subst. unfold print; auto with interrupt_only.
Qed.

Lemma delivers_read_sensor_data :
  delivers (Dht22SensorRead.read_sensor_data round dht_sensor).
Proof.
  unfold Dht22SensorRead.read_sensor_data. apply delivers_try_except.
  - apply delivers_bind; [apply delivers_dht_sensor_read|].
    intros [[t|] [h|]]; cbn [fst snd]; unfold print; auto 10 with delivers.
  - intros e h. destruct (is_Exception e); [|discriminate].
    intros H; inversion H; subst. unfold print; auto with delivers.
Qed.

Lemma costs_read_sensor_data :
  costs 0 (Dht22SensorRead.read_sensor_data round dht_sensor).
Proof.
  unfold Dht22SensorRead.read_sensor_data. apply costs_try_except with (n := 0).
  - apply costs_seq0; [apply costs_dht_sensor_read|].
    intros [[t|] [h|]]; cbn [fst snd]; unfold print; auto 10 with costs.
  - intros e h. destruct (is_Exception e); [|discriminate].
    intros H; inversion H; subst. split; [reflexivity|].
    unfold print; auto with costs.
Qed.

Lemma interrupt_only_monitor_cycle (n : nat) :
  interrupt_only (Dht22SensorRead.cycle round dht_sensor n).
Proof.
  unfold Dht22SensorRead.cycle, print, sleep.
  apply interrupt_only_bind; [apply interrupt_only_io|]. intros _.
  apply interrupt_only_bind; [apply interrupt_only_read_sensor_data|].
  intros [[t|] [h|]]; cbn [fst snd]; auto 10 with interrupt_only.
Qed.

Lemma delivers_monitor_cycle (n : nat) :
  delivers (Dht22SensorRead.cycle round dht_sensor n).
Proof.
  unfold Dht22SensorRead.cycle, print, sleep.
  apply delivers_bind; [apply delivers_io|]. intros _.
  apply delivers_bind; [apply delivers_read_sensor_data|].
  intros [[t|] [h|]]; cbn [fst snd]; auto 10 with delivers.
Qed.

Lemma costs_monitor_cycle (n : nat) :
  costs 1 (Dht22SensorRead.cycle round dht_sensor n).
Proof.
  unfold Dht22SensorRead.cycle, print, sleep.
  apply (@costs_bind _ _ 1 0); [apply costs_io|]. intros _.
  apply costs_seq0; [apply costs_read_sensor_data|].
  intros [[t|] [h|]]; cbn [fst snd]; auto 10 with costs.
Qed.

Lemma monitor_main_loop_stops (fuel : nat) :
  forall (n : nat) (w : world) (k : nat),
    pending w = Some k -> k < fuel ->
    exists w1 out,
      Dht22SensorRead.main_loop round dht_sensor fuel n w
      = (Raise KeyboardInterrupt, w1, out) /\ pending w1 = None.
Proof.
  induction fuel as [|fuel IH]; intros n w k Hk Hlt; [lia|].
  cbn [Dht22SensorRead.main_loop]. unfold bind.
  pose proof (costs_monitor_cycle (S n) w) as Hc.
  pose proof (@interrupt_only_monitor_cycle (S n) w) as Hi.
  pose proof (@delivers_monitor_cycle (S n) w) as Hd.
  destruct (Dht22SensorRead.cycle round dht_sensor (S n) w) as [[[[]|e|] w1] out1].
  - destruct (Hc k Hk) as (k1 & H1 & L1).
    destruct (IH (S n) w1 k1 H1) as (w2 & out2 & E2 & P2); [lia|].
    rewrite E2. do 2 eexists. split; [reflexivity | exact P2].
  - rewrite (Hi w1 e out1 eq_refl) in *.
    do 2 eexists. split; [reflexivity | exact (Hd w1 out1 eq_refl)].
  - contradiction.
Qed.

(** Sequencing an I/O call before a computation that stops keeps it
    stopping. *)
Lemma io_then_stops {B : Type} (bound : nat) (ev : event) (m : M B) :
  (forall w k, pending w = Some k -> k < bound ->
               exists w1 out, m w = (Raise KeyboardInterrupt, w1, out) /\
                              pending w1 = None) ->
  forall w k, pending w = Some k -> k < bound ->
              exists w1 out, bind (io ev) (fun _ => m) w
                             = (Raise KeyboardInterrupt, w1, out) /\
                             pending w1 = None.
Proof.
  intros Hm [f r p] k Hk Hlt. cbn [pending] in Hk. subst p.
  unfold bind, io. cbn [pending current_relay_state reads].
  destruct k as [|k].
  - do 2 eexists. split; reflexivity.
  - destruct (Hm (World f r (Some k)) k eq_refl) as (w1 & out & E & P); [lia|].
    rewrite E. do 2 eexists. split; [reflexivity | exact P].
Qed.

(** X12.  Ctrl+C stops the monitor cleanly.  If Ctrl+C becomes due after
    [k] more I/O calls, then within any run long enough for more than [k]
    loop iterations, and whatever the sensor answers, [main] is left by
    [KeyboardInterrupt], never by another exception, and the script ends
    normally after printing the stop message as its last line. *)
Theorem monitor_stops_on_ctrl_c :
  forall (fuel k : nat) (f : bool) (r : nat),
    k < fuel ->
    exists (w1 : world) (out1 : list event),
      Dht22SensorRead.main round dht_sensor fuel (World f r (Some k))
      = (Raise KeyboardInterrupt, w1, out1) /\
      Dht22SensorRead.script round dht_sensor fuel (World f r (Some k))
      = (Val tt, w1, out1 ++ [Print [Text "\nProgram stopped by user"]]).
Proof.
  intros fuel k f r Hlt.
  assert (G : forall w k0, pending w = Some k0 -> k0 < fuel ->
                exists w1 out,
                  Dht22SensorRead.main round dht_sensor fuel w
                  = (Raise KeyboardInterrupt, w1, out) /\ pending w1 = None).
  { unfold Dht22SensorRead.main, print.
    do 6 (apply io_then_stops).
    intros w k0 Hk0 Hlt0. exact (monitor_main_loop_stops 0 w Hk0 Hlt0). }
  destruct (G (World f r (Some k)) k eq_refl Hlt) as (w1 & out1 & E & P).
  exists w1, out1. split; [exact E|].
  unfold Dht22SensorRead.script, try_except. rewrite E.
  destruct w1 as [f1 r1 p1]. cbn [pending] in P. subst p1. reflexivity.
Qed.

End MonitorStop.

(** The monitor on a steady sensor with Ctrl+C due after 30 I/O calls has
    stopped within 31 iterations. *)
Lemma monitor_stops_on_ctrl_c_witness :
  30 < 31 /\
  exists (w1 : world) (out1 : list event),
    Dht22SensorRead.main micropython_round (steady 28.0 50.0) 31 (World false 0 (Some 30))
    = (Raise KeyboardInterrupt, w1, out1) /\
    Dht22SensorRead.script micropython_round (steady 28.0 50.0) 31
      (World false 0 (Some 30))
    = (Val tt, w1, out1 ++ [Print [Text "\nProgram stopped by user"]]).
Proof.
  split; [lia|].
  apply (@monitor_stops_on_ctrl_c micropython_round (steady 28.0 50.0) 31 30 false 0).
  lia.
Defined.
